(** * NELSVIEW: the DICOM hologram viewer

    A shallow embedding of the volumetric reconstruction code of
    [frontend/src/DicomViewer1.js] (the upload handler, the 3D effect and
    [createVolumeFromSlices]) and of the [ThreeDViewer] component, followed
    by the properties of the point cloud they build and of the scene they
    maintain.

    JavaScript numbers are modelled exactly: pixel values, image sizes and
    loop counters are integers ([Z]); coordinates, which involve halves, are
    rationals ([Q]).  All quantities that occur are small dyadic rationals,
    for which double arithmetic is exact. *)

From Stdlib Require Import ZArith QArith Qminmax List Bool Lia Lqa.
From Stdlib Require Import Sorted Permutation.
From Stdlib Require String.
Import ListNotations.

Local Open Scope Z_scope.

(* ================================================================== *)
(** * JavaScript built-ins used by the viewer *)
(* ================================================================== *)

Module JS.

(** A number that may be [NaN] (what [parseInt] returns). *)
Inductive Number : Type :=
| Num (z : Z)
| NaN.

(** [a - b] on numbers. *)
Definition sub (a b : Number) : Number :=
  match a, b with
  | Num x, Num y => Num (x - y)
  | _, _ => NaN
  end.

(** What an abrupt completion carries.  [TypeError] is what the engine
    raises when a property of [null] or [undefined] is read.
    [EmptyStackError] and [DimensionMismatchError] are the two error classes
    of the design document; no statement of the source constructs them. *)
Inductive Exception : Type :=
| TypeError
| EmptyStackError
| DimensionMismatchError.

Inductive Completion : Type :=
| Normal
| Throw (e : Exception).

(** [pixelData[i]]: reading an array outside its bounds gives [undefined],
    here [None]. *)
Definition get {A : Type} (arr : list A) (i : Z) : option A :=
  if i <? 0 then None else nth_error arr (Z.to_nat i).

(** [v < c] where [v] may be [undefined]: [undefined] converts to [NaN] and
    every comparison with [NaN] is false. *)
Definition lt (v : option Z) (c : Z) : bool :=
  match v with
  | Some n => n <? c
  | None => false
  end.

(** [Math.max(a, b, c)] on integers. *)
Definition Math_max3 (a b c : Z) : Z := Z.max (Z.max a b) c.

(** [Math.floor(n / 2)] for an integer [n]. *)
Definition Math_floor_half (n : Z) : Z := n / 2.

(** [for (let i = start; i < bound; i += step) body(i)], as a state
    transformer.  [fuel] bounds the number of iterations. *)
Fixpoint for_from {A : Type} (fuel : nat) (i bound step : Z)
         (body : Z -> A -> A) (a : A) : A :=
  match fuel with
  | O => a
  | S fuel' =>
      if i <? bound
      then for_from fuel' (i + step) bound step body (body i a)
      else a
  end.

(** The loop from [0]: with a step of at least one, [bound] iterations are
    always enough (lemma [for_loop_fuel] below). *)
Definition for_loop {A : Type} (bound step : Z)
           (body : Z -> A -> A) (a : A) : A :=
  for_from (Z.to_nat bound) 0 bound step body a.

(** The values the loop variable takes. *)
Fixpoint range_from (fuel : nat) (i bound step : Z) : list Z :=
  match fuel with
  | O => []
  | S fuel' =>
      if i <? bound then i :: range_from fuel' (i + step) bound step else []
  end.

Definition loop_range (bound step : Z) : list Z :=
  range_from (Z.to_nat bound) 0 bound step.

(** [arr.map((x, index) => f(x, index))]. *)
Fixpoint map_index_from {A B : Type} (f : A -> Z -> B) (i : Z) (arr : list A)
  : list B :=
  match arr with
  | [] => []
  | x :: arr' => f x i :: map_index_from f (i + 1) arr'
  end.

Definition map_index {A B : Type} (f : A -> Z -> B) (arr : list A) : list B :=
  map_index_from f 0 arr.

(** [Array.prototype.sort(comparefn)].  The language requires the sort to
    be stable, and for a consistent comparator its result is then
    determined; it is modelled by a stable insertion sort.  A comparator
    result of [NaN] counts as [+0], as in the language's [SortCompare]. *)
Definition positive_result (v : Number) : bool :=
  match v with
  | Num z => 0 <? z
  | NaN => false
  end.

Fixpoint sort_insert {A : Type} (cmp : A -> A -> Number) (x : A) (l : list A)
  : list A :=
  match l with
  | [] => [x]
  | y :: l' =>
      if positive_result (cmp x y)
      then y :: sort_insert cmp x l'
      else x :: y :: l'
  end.

Fixpoint sort {A : Type} (cmp : A -> A -> Number) (arr : list A) : list A :=
  match arr with
  | [] => []
  | x :: arr' => sort_insert cmp x (sort cmp arr')
  end.

(** [Promise.all] over the results of the loads: it fulfils with all the
    values, in order, or rejects if one of them rejected. *)
Fixpoint Promise_all {A : Type} (ps : list (option A)) : option (list A) :=
  match ps with
  | [] => Some []
  | None :: _ => None
  | Some v :: ps' =>
      match Promise_all ps' with
      | Some vs => Some (v :: vs)
      | None => None
      end
  end.

End JS.

(* ================================================================== *)
(** * The part of three.js the viewer touches *)
(* ================================================================== *)

Module THREE.

Record Color : Type := { r : Q; g : Q; b : Q }.

(** [new THREE.Color(hex)]: the three bytes of [hex], each divided by 255
    (no conversion between colour spaces is modelled). *)
Definition Color_hex (hex : Z) : Color :=
  {| r := inject_Z (Z.land (Z.shiftr hex 16) 255) / 255;
     g := inject_Z (Z.land (Z.shiftr hex 8) 255) / 255;
     b := inject_Z (Z.land hex 255) / 255 |}.

(** A [BufferGeometry] with its two attributes, each a flat array with
    three entries per vertex. *)
Record BufferGeometry : Type :=
  { position : list Q;
    color : list Q }.

Record PointsMaterial : Type :=
  { size : Q;
    vertexColors : bool;
    transparent : bool;
    opacity : Q }.

(** The objects that are added to a scene. *)
Inductive Object3D : Type :=
| AmbientLight (hex : Z) (intensity : Q)
| DirectionalLight (hex : Z) (intensity : Q) (px py pz : Q)
| Points (geometry : BufferGeometry) (material : PointsMaterial).

(** [child instanceof THREE.AmbientLight || child instanceof
    THREE.DirectionalLight]. *)
Definition is_light (o : Object3D) : bool :=
  match o with
  | AmbientLight _ _ => true
  | DirectionalLight _ _ _ _ _ => true
  | Points _ _ => false
  end.

Definition is_points (o : Object3D) : bool :=
  match o with
  | Points _ _ => true
  | _ => false
  end.

Record Scene : Type := { children : list Object3D }.

(** [scene.add(o)]. *)
Definition add (s : Scene) (o : Object3D) : Scene :=
  {| children := children s ++ [o] |}.

(** [scene.remove(scene.children[k])]: an object is a child at most once,
    so this takes out the entry at index [k]. *)
Definition remove_child (s : Scene) (k : nat) : Scene :=
  {| children := firstn k (children s) ++ skipn (S k) (children s) |}.

(** The camera; only the z coordinate of its position is ever written. *)
Record PerspectiveCamera : Type := { position_z : Q }.

(** The orbit controller; its [update] is outside the model. *)
Record OrbitControls : Type :=
  { enableDamping : bool;
    dampingFactor : Q }.

End THREE.

(* ================================================================== *)
(** * DicomViewer1.js *)
(* ================================================================== *)

Module DicomViewer.

(** A decoded image, as the cornerstone loader hands it over.
    [x00200013] is the instance number element: [Some n] when [image.data]
    is there and holds a non-empty string for the element, [n] being what
    [parseInt] makes of that string; [None] otherwise. *)
Record Image : Type :=
  { columns : Z;
    rows : Z;
    getPixelData : list Z;
    x00200013 : option JS.Number }.

(** An uploaded file together with the outcome of
    [cornerstone.loadImage] on it ([None]: the load is rejected). *)
Record File : Type := { loadImage : option Image }.

(** The objects built by the upload handler (the object URL is left out). *)
Record Slice : Type :=
  { index : Z;
    image : Image;
    instanceNumber : JS.Number }.

Inductive ViewMode : Type := Mode2d | Mode3d.

(** The component state written by the upload handler. *)
Record State : Type :=
  { files : list File;
    slices : list Slice;
    currentSliceIndex : Z;
    loading : bool }.

(** The callback mapped over the uploaded files. *)
Definition loadSlice (file : File) (index : Z) : option Slice :=
  match loadImage file with
  | None => None
  | Some image =>
      Some {| index := index;
              image := image;
              instanceNumber :=
                match x00200013 image with
                | Some n => n
                | None => JS.Num index
                end |}
  end.

(** [(a, b) => a.instanceNumber - b.instanceNumber]. *)
Definition byInstanceNumber (a b : Slice) : JS.Number :=
  JS.sub (instanceNumber a) (instanceNumber b).

(** [handleFileUpload]: the state after the handler has run to its end.
    A rejected load is caught and logged; the handler itself never
    throws. *)
Definition handleFileUpload (st : State) (uploadedFiles : list File) : State :=
  if Z.of_nat (length uploadedFiles) =? 0 then st
  else
    match JS.Promise_all (JS.map_index loadSlice uploadedFiles) with
    | Some loadedSlices =>
        let sortedSlices := JS.sort byInstanceNumber loadedSlices in
        {| files := uploadedFiles;
           slices := sortedSlices;
           currentSliceIndex :=
             JS.Math_floor_half (Z.of_nat (length sortedSlices));
           loading := false |}
    | None =>
        {| files := uploadedFiles;
           slices := slices st;
           currentSliceIndex := currentSliceIndex st;
           loading := false |}
    end.

(** ** The sampler *)

(** The two arrays filled by the loops, and the number of calls made to
    [Math.random] so far.  The random source is an arbitrary sequence
    [rand : nat -> Q]; the [k]-th call returns [rand k]. *)
Record Buffers : Type :=
  { vertices : list Q;
    colors : list Q;
    draws : nat }.

Definition emptyBuffers : Buffers :=
  {| vertices := []; colors := []; draws := 0 |}.

Definition Math_random (rand : nat -> Q) (a : Buffers) : Q * Buffers :=
  (rand (draws a),
   {| vertices := vertices a; colors := colors a; draws := S (draws a) |}).

(** [vertices.push(px, py, pz); colors.push(color.r, color.g, color.b)]. *)
Definition push (c : THREE.Color) (px py pz : Q) (a : Buffers) : Buffers :=
  {| vertices := vertices a ++ [px; py; pz];
     colors := colors a ++ [THREE.r c; THREE.g c; THREE.b c];
     draws := draws a |}.

(** [u > t] on rationals. *)
Definition Qgt_bool (u t : Q) : bool := negb (Qle_bool u t).

Definition sliceHeight : Z := 1.

(** The body of the innermost loop, for one pixel. *)
Definition samplePixel (rand : nat -> Q) (pixelData : list Z) (width : Z)
           (centerX centerY z : Q) (y x : Z) (a : Buffers) : Buffers :=
  let pixelIndex := y * width + x in
  let pixelValue := JS.get pixelData pixelIndex in
  if JS.lt pixelValue (-800) then a
  else if JS.lt pixelValue (-100) then
    let color := THREE.Color_hex 0x3498db in
    let (u, a1) := Math_random rand a in
    if Qgt_bool u (1 # 10)%Q then a1
    else push color (inject_Z x - centerX)%Q (- (inject_Z y - centerY))%Q z a1
  else if JS.lt pixelValue 200 then
    let color := THREE.Color_hex 0xe74c3c in
    let (u, a1) := Math_random rand a in
    if Qgt_bool u (3 # 10)%Q then a1
    else push color (inject_Z x - centerX)%Q (- (inject_Z y - centerY))%Q z a1
  else
    let color := THREE.Color_hex 0xf1c40f in
    push color (inject_Z x - centerX)%Q (- (inject_Z y - centerY))%Q z a.

(** The body of the loop over the slices, for the slice at position [i]. *)
Definition sampleSlice (rand : nat -> Q) (samplingFactor : Z)
           (totalHeight : Z) (i : Z) (slice : Slice) (a : Buffers) : Buffers :=
  let image := image slice in
  let pixelData := getPixelData image in
  let width := columns image in
  let height := rows image in
  let centerX := (inject_Z width / 2)%Q in
  let centerY := (inject_Z height / 2)%Q in
  let z := (inject_Z (i * sliceHeight) - inject_Z totalHeight / 2)%Q in
  JS.for_loop height samplingFactor
    (fun y =>
       JS.for_loop width samplingFactor
         (fun x => samplePixel rand pixelData width centerX centerY z y x))
    a.

(** The loop over the slices.  The source fixes the sampling factor to 4;
    it is a parameter here so that the loops can be studied at any step. *)
Definition sampleVolume (rand : nat -> Q) (samplingFactor : Z)
           (slices : list Slice) : Buffers :=
  let totalHeight := Z.of_nat (length slices) * sliceHeight in
  JS.for_loop (Z.of_nat (length slices)) 1
    (fun i a =>
       match JS.get slices i with
       | Some slice => sampleSlice rand samplingFactor totalHeight i slice a
       | None => a
       end)
    emptyBuffers.

(** ** The scene *)

(** The refs of the component that the 3D code reads and writes. *)
Record Refs : Type :=
  { threeScene : option THREE.Scene;
    threeCamera : option THREE.PerspectiveCamera;
    threeControls : option THREE.OrbitControls }.

Definition ambientLight : THREE.Object3D := THREE.AmbientLight 0xffffff (1 # 2)%Q.

Definition directionalLight : THREE.Object3D :=
  THREE.DirectionalLight 0xffffff (8 # 10)%Q 0%Q 1%Q 1%Q.

(** [while (children.length > 2) remove(children[2])]. *)
Fixpoint clearVolume_loop (fuel : nat) (s : THREE.Scene) : THREE.Scene :=
  match fuel with
  | O => s
  | S fuel' =>
      if (2 <? length (THREE.children s))%nat
      then clearVolume_loop fuel' (THREE.remove_child s 2)
      else s
  end.

Definition clearVolume (s : THREE.Scene) : THREE.Scene :=
  clearVolume_loop (length (THREE.children s)) s.

Definition pointsMaterial : THREE.PointsMaterial :=
  {| THREE.size := 3 # 2;
     THREE.vertexColors := true;
     THREE.transparent := true;
     THREE.opacity := 7 # 10 |}.

Definition pointCloudOf (a : Buffers) : THREE.Object3D :=
  THREE.Points {| THREE.position := vertices a; THREE.color := colors a |}
               pointsMaterial.

(** [createVolumeFromSlices], run on the refs and the [slices] of the
    current render.  The refs after the call are returned also when the
    call throws: what was written before the throw stays written. *)
Definition createVolumeFromSlices (rand : nat -> Q) (refs : Refs)
           (slices : list Slice) : JS.Completion * Refs :=
  match threeScene refs with
  | None => (JS.Normal, refs)
  | Some scene =>
      if Z.of_nat (length slices) =? 0 then (JS.Normal, refs)
      else
        let scene1 := clearVolume scene in
        let totalHeight := Z.of_nat (length slices) * sliceHeight in
        let samplingFactor := 4 in
        let buffers := sampleVolume rand samplingFactor slices in
        let pointCloud := pointCloudOf buffers in
        let scene2 := THREE.add scene1 pointCloud in
        match JS.get slices 0 with
        | None => (JS.Throw JS.TypeError,
                   {| threeScene := Some scene2;
                      threeCamera := threeCamera refs;
                      threeControls := threeControls refs |})
        | Some first =>
            let maxDimension :=
              JS.Math_max3 (columns (image first)) (rows (image first))
                           totalHeight in
            match threeCamera refs with
            | None => (JS.Throw JS.TypeError,
                       {| threeScene := Some scene2;
                          threeCamera := None;
                          threeControls := threeControls refs |})
            | Some _ =>
                let camera :=
                  {| THREE.position_z := (inject_Z maxDimension * (3 # 2))%Q |} in
                match threeControls refs with
                | None => (JS.Throw JS.TypeError,
                           {| threeScene := Some scene2;
                              threeCamera := Some camera;
                              threeControls := None |})
                | Some controls =>
                    (JS.Normal,
                     {| threeScene := Some scene2;
                        threeCamera := Some camera;
                        threeControls := Some controls |})
                end
            end
        end
  end.

(** The scene, camera and controller set up by the 3D effect when there is
    no scene yet. *)
Definition freshRefs : Refs :=
  {| threeScene :=
       Some (THREE.add (THREE.add {| THREE.children := [] |} ambientLight)
                       directionalLight);
     threeCamera := Some {| THREE.position_z := 200 |};
     threeControls :=
       Some {| THREE.enableDamping := true; THREE.dampingFactor := 1 # 4 |} |}.

(** The 3D effect, run for a view mode, a container that is mounted or
    not, and the current slices.  The completion is that of the call to
    [createVolumeFromSlices] it makes. *)
Definition effect3D (rand : nat -> Q) (viewMode : ViewMode)
           (threeDRef : bool) (refs : Refs) (slices : list Slice)
  : JS.Completion * Refs :=
  match viewMode with
  | Mode3d =>
      if threeDRef && (0 <? Z.of_nat (length slices)) then
        let refs1 :=
          match threeScene refs with
          | None => freshRefs
          | Some _ => refs
          end in
        createVolumeFromSlices rand refs1 slices
      else (JS.Normal, refs)
  | Mode2d => (JS.Normal, refs)
  end.

End DicomViewer.

(* ================================================================== *)
(** * The ThreeDViewer component *)
(* ================================================================== *)

Module ThreeDViewer.

(** The [volumeData] prop: parallel arrays of points and colours, each
    entry an array of three numbers, and the three extents of the stack.
    [points] may be missing. *)
Record VolumeData : Type :=
  { points : option (list (Q * Q * Q));
    colors : list (Q * Q * Q);
    dimensions : Q * Q * Q }.

(** The state of the component. *)
Record Session : Type :=
  { scene : option THREE.Scene;
    camera : option THREE.PerspectiveCamera;
    controls : option THREE.OrbitControls }.

Definition ambientLight : THREE.Object3D := THREE.AmbientLight 0xffffff (1 # 2)%Q.

Definition directionalLight : THREE.Object3D :=
  THREE.DirectionalLight 0xffffff (8 # 10)%Q 0%Q 1%Q 1%Q.

(** The first effect: the scene, camera and controller it stores when the
    container is mounted and there is volume data. *)
Definition initEffect (containerRef : bool) (volumeData : option VolumeData)
           (s : Session) : Session :=
  match containerRef, volumeData with
  | true, Some _ =>
      {| scene :=
           Some (THREE.add (THREE.add {| THREE.children := [] |} ambientLight)
                           directionalLight);
         camera := Some {| THREE.position_z := 200 |};
         controls :=
           Some {| THREE.enableDamping := true;
                   THREE.dampingFactor := 1 # 4 |} |}
  | _, _ => s
  end.

(** [volumeData.points.forEach((point, index) => ...)]: the two flat
    arrays, or [None] when [volumeData.colors[index]] is [undefined] and
    reading its entry [0] throws. *)
Fixpoint flatten_from (index : Z) (pts : list (Q * Q * Q))
         (cols : list (Q * Q * Q)) (vertices colors : list Q)
  : option (list Q * list Q) :=
  match pts with
  | [] => Some (vertices, colors)
  | (p0, p1, p2) :: pts' =>
      match JS.get cols index with
      | None => None
      | Some (c0, c1, c2) =>
          flatten_from (index + 1) pts' cols
                       (vertices ++ [p0; p1; p2]) (colors ++ [c0; c1; c2])
      end
  end.

Definition pointsMaterial : THREE.PointsMaterial :=
  {| THREE.size := 2;
     THREE.vertexColors := true;
     THREE.transparent := true;
     THREE.opacity := 8 # 10 |}.

(** [Math.max(d[0], d[1], d[2])]. *)
Definition maxDimension (d : Q * Q * Q) : Q :=
  let '(d0, d1, d2) := d in Qmax (Qmax d0 d1) d2.

(** The second effect, which shows new volume data.  The recentring of
    the point cloud moves the object and leaves the list of children as it
    is; it is not modelled. *)
Definition updateEffect (s : Session) (volumeData : option VolumeData)
  : JS.Completion * Session :=
  match scene s, volumeData with
  | Some sc, Some vd =>
      match points vd with
      | None => (JS.Normal, s)
      | Some pts =>
          if Z.of_nat (length pts) =? 0 then (JS.Normal, s)
          else
            let sc1 :=
              {| THREE.children := filter THREE.is_light (THREE.children sc) |} in
            match flatten_from 0 pts (colors vd) [] [] with
            | None =>
                (JS.Throw JS.TypeError,
                 {| scene := Some sc1; camera := camera s;
                    controls := controls s |})
            | Some (vertices, cols) =>
                let pointCloud :=
                  THREE.Points {| THREE.position := vertices;
                                  THREE.color := cols |} pointsMaterial in
                let sc2 := THREE.add sc1 pointCloud in
                match camera s with
                | None =>
                    (JS.Throw JS.TypeError,
                     {| scene := Some sc2; camera := None;
                        controls := controls s |})
                | Some _ =>
                    (JS.Normal,
                     {| scene := Some sc2;
                        camera :=
                          Some {| THREE.position_z :=
                                    (maxDimension (dimensions vd) * (3 # 2))%Q |};
                        controls := controls s |})
                end
            end
      end
  | _, _ => (JS.Normal, s)
  end.

End ThreeDViewer.

(* ================================================================== *)
(** * The DicomViewer component that hosts ThreeDViewer *)
(* ================================================================== *)

Module App.

Import String.
Local Open Scope string_scope.

(** A selected file, known by its name. *)
Definition File : Type := string.

(** The body of a response of the processing service, as far as the
    handlers read it.  A field that is missing is [None]. *)
Record Data : Type :=
  { data_error : option string;
    data_details : option string;
    data_success : bool;
    data_images : option (list string);
    data_volume_data : option ThreeDViewer.VolumeData;
    data_upload_id : option string;
    data_file_count : option Z }.

(** What the two awaits of a handler end in: the response with its status
    flag [ok] and its body, or an exception with a message (the request or
    the decoding of the body is rejected). *)
Inductive Fetched : Type :=
| Answered (ok : bool) (data : Data)
| Failed (message : string).

(** The state of the component. *)
Record State : Type :=
  { files : list File;
    uploadId : option string;
    fileCount : option Z;
    viewMode : DicomViewer.ViewMode;
    loading : bool;
    processing : bool;
    resultImage : option string;
    volumeData : option ThreeDViewer.VolumeData;
    error : option string }.

Definition initialState : State :=
  {| files := []; uploadId := None; fileCount := Some 0;
     viewMode := DicomViewer.Mode2d; loading := false; processing := false;
     resultImage := None; volumeData := None; error := None |}.

Definition setFiles (v : list File) (st : State) : State :=
  {| files := v; uploadId := uploadId st; fileCount := fileCount st;
     viewMode := viewMode st; loading := loading st;
     processing := processing st; resultImage := resultImage st;
     volumeData := volumeData st; error := error st |}.

Definition setUploadId (v : option string) (st : State) : State :=
  {| files := files st; uploadId := v; fileCount := fileCount st;
     viewMode := viewMode st; loading := loading st;
     processing := processing st; resultImage := resultImage st;
     volumeData := volumeData st; error := error st |}.

Definition setFileCount (v : option Z) (st : State) : State :=
  {| files := files st; uploadId := uploadId st; fileCount := v;
     viewMode := viewMode st; loading := loading st;
     processing := processing st; resultImage := resultImage st;
     volumeData := volumeData st; error := error st |}.

Definition setViewMode (v : DicomViewer.ViewMode) (st : State) : State :=
  {| files := files st; uploadId := uploadId st; fileCount := fileCount st;
     viewMode := v; loading := loading st;
     processing := processing st; resultImage := resultImage st;
     volumeData := volumeData st; error := error st |}.

Definition setLoading (v : bool) (st : State) : State :=
  {| files := files st; uploadId := uploadId st; fileCount := fileCount st;
     viewMode := viewMode st; loading := v;
     processing := processing st; resultImage := resultImage st;
     volumeData := volumeData st; error := error st |}.

Definition setProcessing (v : bool) (st : State) : State :=
  {| files := files st; uploadId := uploadId st; fileCount := fileCount st;
     viewMode := viewMode st; loading := loading st;
     processing := v; resultImage := resultImage st;
     volumeData := volumeData st; error := error st |}.

Definition setResultImage (v : option string) (st : State) : State :=
  {| files := files st; uploadId := uploadId st; fileCount := fileCount st;
     viewMode := viewMode st; loading := loading st;
     processing := processing st; resultImage := v;
     volumeData := volumeData st; error := error st |}.

Definition setVolumeData (v : option ThreeDViewer.VolumeData) (st : State)
  : State :=
  {| files := files st; uploadId := uploadId st; fileCount := fileCount st;
     viewMode := viewMode st; loading := loading st;
     processing := processing st; resultImage := resultImage st;
     volumeData := v; error := error st |}.

Definition setError (v : option string) (st : State) : State :=
  {| files := files st; uploadId := uploadId st; fileCount := fileCount st;
     viewMode := viewMode st; loading := loading st;
     processing := processing st; resultImage := resultImage st;
     volumeData := volumeData st; error := v |}.

(** Whether a string that may be missing counts as true: it is there and
    is not empty. *)
Definition truthy (v : option string) : bool :=
  match v with
  | Some s => negb (String.eqb s "")
  | None => false
  end.

(** [a || b] for a string [a] that may be missing. *)
Definition orElse (a : option string) (b : string) : string :=
  if truthy a then match a with Some s => s | None => b end else b.

Definition API_URL : string := "http://localhost:5001".

(** [handleFileChange], for the files of the input ([None]: the input has
    no file list). *)
Definition handleFileChange (targetFiles : option (list File)) (st : State)
  : State :=
  match targetFiles with
  | Some fs =>
      if (0 <? Z.of_nat (List.length fs))%Z then
        let st := setFiles fs st in
        let st := setFileCount (Some (Z.of_nat (List.length fs))) st in
        let st := setUploadId None st in
        let st := setResultImage None st in
        let st := setVolumeData None st in
        setError None st
      else st
  | None => st
  end.

(** [uploadFiles] up to its first await: whether a request is sent, and
    the state written so far. *)
Definition uploadFiles_start (st : State) : bool * State :=
  if (Z.of_nat (List.length (files st)) =? 0)%Z then
    (false, setError (Some "Please select files to upload") st)
  else
    (true, setError None (setLoading true st)).

(** [uploadFiles] from the point where its awaits have ended, run on the
    state of that moment. *)
Definition uploadFiles_settle (f : Fetched) (st : State) : State :=
  let st :=
    match f with
    | Answered true data =>
        setFileCount (data_file_count data)
                     (setUploadId (data_upload_id data) st)
    | Answered false data =>
        setError (Some ("Error uploading files: "
                        ++ orElse (data_error data) "Upload failed")) st
    | Failed message =>
        setError (Some ("Error uploading files: " ++ message)) st
    end in
  setLoading false st.

(** The request sent by [processFiles]. *)
Record Request : Type :=
  { endpoint : string;
    upload_id : option string;
    view_type : DicomViewer.ViewMode }.

(** [processFiles] up to its first await: the request that is sent, if
    any, and the state written so far. *)
Definition processFiles_start (st : State) : option Request * State :=
  if negb (truthy (uploadId st)) then
    (None, setError (Some "Please upload files first") st)
  else
    let st1 := setProcessing true st in
    let st1 := setError None st1 in
    let st1 := setResultImage None st1 in
    let st1 := setVolumeData None st1 in
    (Some {| endpoint :=
               match viewMode st with
               | DicomViewer.Mode2d => "/process"
               | DicomViewer.Mode3d => "/process_3d"
               end;
             upload_id := uploadId st;
             view_type := viewMode st |},
     st1).

(** [processFiles] from the point where its awaits have ended.  [mode] is
    the view mode the handler was started with; the state is that of the
    moment the awaits end. *)
Definition processFiles_settle (mode : DicomViewer.ViewMode) (f : Fetched)
           (st : State) : State :=
  let failure (message : string) :=
    setError (Some ("Error processing files: " ++ message)) st in
  let st :=
    match f with
    | Failed message => failure message
    | Answered false data =>
        failure (orElse (data_error data)
                        (orElse (data_details data) "Processing failed"))
    | Answered true data =>
        match mode with
        | DicomViewer.Mode2d =>
            match data_success data, data_images data with
            | true, Some (img :: _) => setResultImage (Some (API_URL ++ img)) st
            | _, _ => failure "No images were generated"
            end
        | DicomViewer.Mode3d =>
            match data_success data, data_volume_data data with
            | true, Some vd => setVolumeData (Some vd) st
            | _, _ => failure "No 3D data was generated"
            end
        end
    end in
  setProcessing false st.

(** The two view mode buttons. *)
Definition selectMode (mode : DicomViewer.ViewMode) (st : State) : State :=
  setResultImage None (setVolumeData None (setViewMode mode st)).

(** The component together with the requests that are under way. *)
Record Machine : Type :=
  { app : State;
    uploadInFlight : bool;
    processInFlight : option DicomViewer.ViewMode }.

Definition initialMachine : Machine :=
  {| app := initialState; uploadInFlight := false; processInFlight := None |}.

(** What can happen to the component: the user picks files, presses a
    button, or a request that is under way comes to its end. *)
Inductive Event : Type :=
| SelectFiles (targetFiles : option (list File))
| ClickUpload
| UploadSettles (f : Fetched)
| ClickProcess
| ProcessSettles (f : Fetched)
| ClickMode (mode : DicomViewer.ViewMode).

(** One event.  A button that is disabled or not rendered does nothing:
    the upload button is disabled while loading or without files, the
    process button is disabled while processing, and the process and mode
    buttons are rendered only with an upload id. *)
Definition step (m : Machine) (e : Event) : Machine :=
  match e with
  | SelectFiles targetFiles =>
      {| app := handleFileChange targetFiles (app m);
         uploadInFlight := uploadInFlight m;
         processInFlight := processInFlight m |}
  | ClickUpload =>
      if loading (app m) || (Z.of_nat (List.length (files (app m))) =? 0)%Z
      then m
      else
        let (sent, st) := uploadFiles_start (app m) in
        {| app := st;
           uploadInFlight := sent;
           processInFlight := processInFlight m |}
  | UploadSettles f =>
      if uploadInFlight m then
        {| app := uploadFiles_settle f (app m);
           uploadInFlight := false;
           processInFlight := processInFlight m |}
      else m
  | ClickProcess =>
      if truthy (uploadId (app m)) && negb (processing (app m)) then
        let (req, st) := processFiles_start (app m) in
        {| app := st;
           uploadInFlight := uploadInFlight m;
           processInFlight := option_map view_type req |}
      else m
  | ProcessSettles f =>
      match processInFlight m with
      | Some mode =>
          {| app := processFiles_settle mode f (app m);
             uploadInFlight := uploadInFlight m;
             processInFlight := None |}
      | None => m
      end
  | ClickMode mode =>
      if truthy (uploadId (app m)) then
        {| app := selectMode mode (app m);
           uploadInFlight := uploadInFlight m;
           processInFlight := processInFlight m |}
      else m
  end.

Definition run (events : list Event) : Machine :=
  fold_left step events initialMachine.

End App.

(* ================================================================== *)
(** * Vocabulary of the statements *)
(* ================================================================== *)

Import DicomViewer.

(** Three numbers per point: the layout of both arrays. *)
Definition flat3 (l : list (Q * Q * Q)) : list Q :=
  flat_map (fun p => [fst (fst p); snd (fst p); snd p]) l.

Definition rgb (c : THREE.Color) : Q * Q * Q :=
  (THREE.r c, THREE.g c, THREE.b c).

Definition zOf (p : Q * Q * Q) : Q := snd p.

(** The colours of the three tissue classes. *)
Definition lungColor : THREE.Color := THREE.Color_hex 0x3498db.
Definition softTissueColor : THREE.Color := THREE.Color_hex 0xe74c3c.
Definition boneColor : THREE.Color := THREE.Color_hex 0xf1c40f.

(** The colour the sampler gives to a value it has read. *)
Definition classColor (v : option Z) : THREE.Color :=
  if JS.lt v (-100) then lungColor
  else if JS.lt v 200 then softTissueColor
  else boneColor.

(** Where an emitted point comes from: the pixel [(e_x, e_y)] of the slice
    [e_slice], which stands at position [e_i] of the stack. *)
Record Emission : Type :=
  { e_i : Z;
    e_slice : Slice;
    e_y : Z;
    e_x : Z }.

(** The value read at that pixel. *)
Definition e_value (e : Emission) : option Z :=
  JS.get (getPixelData (image (e_slice e)))
         (e_y e * columns (image (e_slice e)) + e_x e).

(** The point pushed for that pixel, in a stack of total height
    [totalHeight]. *)
Definition e_point (totalHeight : Z) (e : Emission) : Q * Q * Q :=
  ((inject_Z (e_x e) - inject_Z (columns (image (e_slice e))) / 2)%Q,
   (- (inject_Z (e_y e) - inject_Z (rows (image (e_slice e))) / 2))%Q,
   (inject_Z (e_i e * sliceHeight) - inject_Z totalHeight / 2)%Q).

Definition e_color (e : Emission) : Q * Q * Q := rgb (classColor (e_value e)).

(** [e] is a pixel that the loops visit in the slice [slice] at position
    [i], and its value is not below the air cutoff. *)
Definition fromSlice (samplingFactor : Z) (i : Z) (slice : Slice)
           (e : Emission) : Prop :=
  e_i e = i /\ e_slice e = slice /\
  In (e_y e) (JS.loop_range (rows (image slice)) samplingFactor) /\
  In (e_x e) (JS.loop_range (columns (image slice)) samplingFactor) /\
  JS.lt (e_value e) (-800) = false.

Definition fromStack (samplingFactor : Z) (slices : list Slice)
           (e : Emission) : Prop :=
  exists i slice,
    JS.get slices i = Some slice /\ fromSlice samplingFactor i slice e.

(** [a'] is [a] with the points and colours of the emissions [es]
    appended, in that order. *)
Definition appended (totalHeight : Z) (a a' : Buffers) (es : list Emission)
  : Prop :=
  vertices a' = vertices a ++ flat3 (map (e_point totalHeight) es) /\
  colors a' = colors a ++ flat3 (map e_color es).

(** The pixel array of the slice has one entry per pixel. *)
Definition wellFormed (slice : Slice) : Prop :=
  Z.of_nat (length (getPixelData (image slice))) =
  columns (image slice) * rows (image slice).

(** The integer a sort key stands for. *)
Definition keyOf (s : Slice) : Z :=
  match instanceNumber s with
  | JS.Num z => z
  | JS.NaN => 0
  end.

(** The sort key of the slice that arrives at position [k] with image
    [im]: its instance number, or [k] if it has none. *)
Definition arrivalKey (k : Z) (im : Image) : JS.Number :=
  match x00200013 im with
  | Some n => n
  | None => JS.Num k
  end.

(** The slice object built for the image [im] that arrives at position
    [k]. *)
Definition arrivedSlice (im : Image) (k : Z) : Slice :=
  {| index := k; image := im; instanceNumber := arrivalKey k im |}.

(** The sort key of the slice is a number. *)
Definition numericKey (s : Slice) : Prop :=
  instanceNumber s = JS.Num (keyOf s).

Definition keyLe (a b : Slice) : Prop := keyOf a <= keyOf b.

Definition hasKey (k : Z) (s : Slice) : bool := keyOf s =? k.

(** All the coordinates shown by the point clouds of a scene. *)
Definition shownVertices (s : THREE.Scene) : list Q :=
  flat_map (fun o => match o with
                     | THREE.Points geo _ => THREE.position geo
                     | _ => []
                     end) (THREE.children s).

Definition pointClouds (s : THREE.Scene) : list THREE.Object3D :=
  filter THREE.is_points (THREE.children s).

(** A retention source under which every sample is kept. *)
Definition alwaysKeep : nat -> Q := fun _ => 0%Q.

(** The session is ready: scene, camera and controller are all there. *)
Definition ready (refs : Refs) : Prop :=
  threeScene refs <> None /\ threeCamera refs <> None /\
  threeControls refs <> None.

(** ** Inputs used in the examples *)

(** An image of [w] columns and [h] rows whose pixels all have value [v],
    without instance number. *)
Definition uniformImage (w h v : Z) : Image :=
  {| columns := w;
     rows := h;
     getPixelData := repeat v (Z.to_nat (w * h));
     x00200013 := None |}.

Definition sliceAt (i : Z) (im : Image) : Slice :=
  {| index := i; image := im; instanceNumber := JS.Num i |}.

Definition airSlice : Slice := sliceAt 0 (uniformImage 4 4 (-1000)).
Definition boneSlice : Slice := sliceAt 1 (uniformImage 4 4 500).

(** Two slices of 4 by 4 pixels: air below, bone above. *)
Definition airBoneStack : list Slice := [airSlice; boneSlice].

(** The pixel of [boneSlice] at row [y] and column [x], and all its
    sixteen pixels, row by row. *)
Definition bonePixel (y x : Z) : Emission :=
  {| e_i := 1; e_slice := boneSlice; e_y := y; e_x := x |}.

Definition allBonePixels : list Emission :=
  map (fun yx => bonePixel (fst yx) (snd yx))
      (list_prod [0; 1; 2; 3] [0; 1; 2; 3]).

(** Two slices that disagree on their width. *)
Definition mismatchedStack : list Slice :=
  [sliceAt 0 (uniformImage 4 4 500); sliceAt 1 (uniformImage 8 4 500)].


(** Volume data with one point, and volume data with none. *)
Definition onePointVolume : ThreeDViewer.VolumeData :=
  {| ThreeDViewer.points := Some [(1, 2, 3)%Q];
     ThreeDViewer.colors := [(1, 1, 0)%Q];
     ThreeDViewer.dimensions := (4, 4, 2)%Q |}.

Definition emptyVolume : ThreeDViewer.VolumeData :=
  {| ThreeDViewer.points := Some [];
     ThreeDViewer.colors := [];
     ThreeDViewer.dimensions := (4, 4, 2)%Q |}.

Definition unmounted : ThreeDViewer.Session :=
  {| ThreeDViewer.scene := None;
     ThreeDViewer.camera := None;
     ThreeDViewer.controls := None |}.

(** The viewer after it has been mounted on [onePointVolume] and has shown
    it. *)
Definition showingOnePoint : ThreeDViewer.Session :=
  snd (ThreeDViewer.updateEffect
         (ThreeDViewer.initEffect true (Some onePointVolume) unmounted)
         (Some onePointVolume)).

(** Three files that arrive as instance 3, no instance number, instance 1. *)
Definition taggedImage (n : Z) : Image :=
  {| columns := 4; rows := 4; getPixelData := repeat 0 16;
     x00200013 := Some (JS.Num n) |}.

Definition threeFiles : list File :=
  [ {| loadImage := Some (taggedImage 3) |};
    {| loadImage := Some (uniformImage 4 4 0) |};
    {| loadImage := Some (taggedImage 1) |} ].

Definition initialState : State :=
  {| files := []; slices := []; currentSliceIndex := 0; loading := false |}.

(** ** The pixels the loops visit *)

Definition pixelAt (i : Z) (slice : Slice) (y x : Z) : Emission :=
  {| e_i := i; e_slice := slice; e_y := y; e_x := x |}.

(** The pixels of one slice in the order of the two loops: row by row,
    and from left to right in each row. *)
Definition visitedSlice (samplingFactor i : Z) (slice : Slice)
  : list Emission :=
  flat_map
    (fun y => map (pixelAt i slice y)
                  (JS.loop_range (columns (image slice)) samplingFactor))
    (JS.loop_range (rows (image slice)) samplingFactor).

(** The slices of a stack, each with its position. *)
Definition positioned (slices : list Slice) : list (Z * Slice) :=
  combine (map Z.of_nat (seq 0 (length slices))) slices.

(** The pixels of a stack in the order of the three loops. *)
Definition visited (samplingFactor : Z) (slices : list Slice)
  : list Emission :=
  flat_map (fun p => visitedSlice samplingFactor (fst p) (snd p))
           (positioned slices).

(** The value read at the pixel is not below the air cutoff. *)
Definition notAir (e : Emission) : bool := negb (JS.lt (e_value e) (-800)).

(** The value read at the pixel falls into the last branch of the
    classification: it is not below 200. *)
Definition boneLike (e : Emission) : bool := negb (JS.lt (e_value e) 200).

(** A draw of [Math.random] is made for the pixel: its value is neither
    air nor in the last branch. *)
Definition drawn (e : Emission) : bool := notAir e && negb (boneLike e).

(** The largest draw under which the pixel is kept. *)
Definition threshold (e : Emission) : Q :=
  if JS.lt (e_value e) (-100) then (1 # 10)%Q else (3 # 10)%Q.

(** The pixels of [l] that are kept when the draws are made from the
    [k]-th on: air is dropped, a pixel of the last branch is kept, and any
    other pixel takes the next draw and is kept unless the draw exceeds its
    threshold. *)
Fixpoint thin (rand : nat -> Q) (k : nat) (l : list Emission)
  : list Emission :=
  match l with
  | [] => []
  | e :: l' =>
      if notAir e then
        if boneLike e then e :: thin rand k l'
        else if Qgt_bool (rand k) (threshold e) then thin rand (S k) l'
             else e :: thin rand (S k) l'
      else thin rand k l'
  end.

(** [l1] is [l2] with some entries left out. *)
Inductive subseq {A : Type} : list A -> list A -> Prop :=
| subseq_nil : subseq [] []
| subseq_skip (x : A) (l1 l2 : list A) : subseq l1 l2 -> subseq l1 (x :: l2)
| subseq_keep (x : A) (l1 l2 : list A) :
    subseq l1 l2 -> subseq (x :: l1) (x :: l2).

(** The number of iterations of a loop from 0 below [bound] in steps of
    [step]. *)
Definition iterations (bound step : Z) : nat :=
  Z.to_nat ((bound + step - 1) / step).

(** ** Runs of the 3D effect *)




(** ** More inputs for the examples *)

(** A slice that announces 4 by 4 pixels and holds none. *)
Definition truncatedSlice : Slice :=
  sliceAt 0 {| columns := 4; rows := 4; getPixelData := [];
               x00200013 := None |}.

(** A slice of 8 by 8 pixels with soft tissue only. *)
Definition softSlice : Slice := sliceAt 0 (uniformImage 8 8 0).

(** A random source under which no sample that is drawn for is kept. *)
Definition neverKeep : nat -> Q := fun _ => 1%Q.

(** Two files of which the second cannot be loaded. *)
Definition brokenFiles : list File :=
  [ {| loadImage := Some (taggedImage 3) |}; {| loadImage := None |} ].

(** [ThreeDViewer] for new volume data: the first effect, which depends
    on the volume data, stores a new scene, camera and controller, and in
    the render that follows the second effect runs on them.  (The run of
    the second effect that precedes that render acts on the scene that is
    being replaced.) *)
Definition showVolume (containerRef : bool) (vd : ThreeDViewer.VolumeData)
           (s : ThreeDViewer.Session) : JS.Completion * ThreeDViewer.Session :=
  ThreeDViewer.updateEffect
    (ThreeDViewer.initEffect containerRef (Some vd) s) (Some vd).

(** Volume data with two points and one colour. *)
Definition uncolouredVolume : ThreeDViewer.VolumeData :=
  {| ThreeDViewer.points := Some [(1, 2, 3)%Q; (4, 5, 6)%Q];
     ThreeDViewer.colors := [(1, 1, 0)%Q];
     ThreeDViewer.dimensions := (4, 4, 2)%Q |}.

Module AppExamples.

Import String.
Local Open Scope string_scope.

(** The component after one file has been selected and uploaded. *)
Definition selected : App.State :=
  App.handleFileChange (Some ["slice1.dcm"]) App.initialState.

Definition uploaded : App.State :=
  App.uploadFiles_settle
    (App.Answered true
       {| App.data_error := None; App.data_details := None;
          App.data_success := true; App.data_images := None;
          App.data_volume_data := None;
          App.data_upload_id := Some "upload-1";
          App.data_file_count := Some 1 |})
    (snd (App.uploadFiles_start selected)).


End AppExamples.

(* ================================================================== *)
(** * Loops *)
(* ================================================================== *)

Section Loops.

Context {A : Type}.
Variable body : Z -> A -> A.

Lemma for_from_fold (fuel : nat) :
  forall i bound step a,
    JS.for_from fuel i bound step body a =
    fold_left (fun a x => body x a) (JS.range_from fuel i bound step) a.
Proof.
  induction fuel as [|fuel IH]; intros i bound step a; simpl.
  - reflexivity.
  - destruct (i <? bound); simpl; [apply IH | reflexivity].
Qed.

Lemma for_loop_fold (bound step : Z) (a : A) :
  JS.for_loop bound step body a =
  fold_left (fun a x => body x a) (JS.loop_range bound step) a.
Proof. apply for_from_fold. Qed.

End Loops.

(** Once the fuel covers the distance to the bound, more fuel changes
    nothing: the loop stops because its condition fails. *)
Lemma range_from_enough (step : Z) (Hstep : 0 < step) :
  forall fuel fuel' i bound,
    (Z.to_nat (bound - i) <= fuel)%nat ->
    (Z.to_nat (bound - i) <= fuel')%nat ->
    JS.range_from fuel i bound step = JS.range_from fuel' i bound step.
Proof.
  induction fuel as [|fuel IH]; intros fuel' i bound H H'.
  - assert (bound <= i) by lia.
    destruct fuel'; simpl; [reflexivity|].
    destruct (Z.ltb_spec i bound); [lia | reflexivity].
  - destruct fuel' as [|fuel']; simpl.
    + destruct (Z.ltb_spec i bound); [lia | reflexivity].
    + destruct (Z.ltb_spec i bound); [|reflexivity].
      f_equal. apply IH; lia.
Qed.

Lemma for_loop_fuel {A : Type} (body : Z -> A -> A) (bound step : Z) (a : A) :
  0 < step ->
  forall extra,
    JS.for_from (Z.to_nat bound + extra) 0 bound step body a =
    JS.for_loop bound step body a.
Proof.
  intros Hstep extra. unfold JS.for_loop.
  rewrite !for_from_fold.
  rewrite (range_from_enough step Hstep _ (Z.to_nat bound) 0 bound);
    [reflexivity | lia | lia].
Qed.

Lemma range_from_sound (step : Z) (Hstep : 0 < step) :
  forall fuel i bound x,
    In x (JS.range_from fuel i bound step) ->
    i <= x < bound /\ (x - i) mod step = 0.
Proof.
  induction fuel as [|fuel IH]; intros i bound x Hin; simpl in Hin.
  - contradiction.
  - destruct (Z.ltb_spec i bound) as [Hlt|]; [|contradiction].
    destruct Hin as [<- | Hin].
    + split; [lia|]. rewrite Z.sub_diag. apply Z.mod_0_l. lia.
    + apply IH in Hin. destruct Hin as [Hr Hm]. split; [lia|].
      replace (x - i) with ((x - (i + step)) + 1 * step) by lia.
      rewrite Z.mod_add by lia. exact Hm.
Qed.

Lemma range_from_complete (step : Z) (Hstep : 0 < step) :
  forall fuel i bound x,
    (Z.to_nat (bound - i) <= fuel)%nat ->
    i <= x < bound -> (x - i) mod step = 0 ->
    In x (JS.range_from fuel i bound step).
Proof.
  induction fuel as [|fuel IH]; intros i bound x Hfuel Hr Hm.
  - lia.
  - simpl. destruct (Z.ltb_spec i bound); [|lia].
    destruct (Z.eq_dec x i) as [->|Hne]; [left; reflexivity|].
    right.
    assert (Hge : i + step <= x).
    { apply Z.mod_divide in Hm; [|lia]. destruct Hm as [k Hk].
      assert (0 < k) by nia. nia. }
    apply IH; [lia | lia |].
    replace (x - (i + step)) with ((x - i) + (-1) * step) by lia.
    rewrite Z.mod_add by lia. exact Hm.
Qed.

(** The loop variable takes exactly the multiples of the step below the
    bound. *)
Lemma loop_range_spec (bound step x : Z) :
  0 < step ->
  In x (JS.loop_range bound step) <-> 0 <= x < bound /\ x mod step = 0.
Proof.
  intros Hstep. unfold JS.loop_range. split.
  - intros Hin. apply (range_from_sound step Hstep) in Hin.
    rewrite Z.sub_0_r in Hin. exact Hin.
  - intros [Hr Hm]. apply (range_from_complete step Hstep); [lia | lia |].
    rewrite Z.sub_0_r. exact Hm.
Qed.

(* ================================================================== *)
(** * The sampler: what the loops append *)
(* ================================================================== *)

Section Sampler.

Variable rand : nat -> Q.
Variable samplingFactor : Z.
Variable totalHeight : Z.

Lemma appended_refl (a : Buffers) : appended totalHeight a a [].
Proof. split; simpl; rewrite app_nil_r; reflexivity. Qed.

Lemma appended_trans (a b c : Buffers) (es es' : list Emission) :
  appended totalHeight a b es -> appended totalHeight b c es' ->
  appended totalHeight a c (es ++ es').
Proof.
  intros [Hv Hc] [Hv' Hc']. unfold appended, flat3 in *.
  rewrite Hv', Hv, Hc', Hc, !map_app, !flat_map_app, !app_assoc.
  split; reflexivity.
Qed.

(** A loop whose every iteration appends emissions satisfying [P]
    appends, as a whole, emissions satisfying [P]. *)
Lemma fold_appended {X : Type} (P : Emission -> Prop)
      (body : X -> Buffers -> Buffers) (l : list X) :
  (forall x a, In x l ->
               exists es, appended totalHeight a (body x a) es /\ Forall P es) ->
  forall a,
  exists es,
    appended totalHeight a (fold_left (fun a x => body x a) l a) es /\
    Forall P es.
Proof.
  induction l as [|x l IH]; intros Hbody a; simpl.
  - exists []. split; [apply appended_refl | constructor].
  - destruct (Hbody x a (or_introl eq_refl)) as [es1 [H1 F1]].
    destruct (IH (fun x' a' Hin => Hbody x' a' (or_intror Hin)) (body x a))
      as [es2 [H2 F2]].
    exists (es1 ++ es2). split.
    + eapply appended_trans; eassumption.
    + apply Forall_app. split; assumption.
Qed.

Lemma push_appended (i : Z) (slice : Slice) (y x : Z) (a : Buffers) :
  let e := {| e_i := i; e_slice := slice; e_y := y; e_x := x |} in
  appended totalHeight a
    (push (classColor (e_value e))
          (inject_Z x - inject_Z (columns (image slice)) / 2)%Q
          (- (inject_Z y - inject_Z (rows (image slice)) / 2))%Q
          (inject_Z (i * sliceHeight) - inject_Z totalHeight / 2)%Q a)
    [e].
Proof.
  intros e. split; simpl; rewrite ?app_nil_r; reflexivity.
Qed.

Lemma samplePixel_appended (i : Z) (slice : Slice) (y x : Z) (a : Buffers) :
  In y (JS.loop_range (rows (image slice)) samplingFactor) ->
  In x (JS.loop_range (columns (image slice)) samplingFactor) ->
  exists es,
    appended totalHeight a
      (samplePixel rand (getPixelData (image slice)) (columns (image slice))
         (inject_Z (columns (image slice)) / 2)%Q
         (inject_Z (rows (image slice)) / 2)%Q
         (inject_Z (i * sliceHeight) - inject_Z totalHeight / 2)%Q y x a)
      es /\
    Forall (fromSlice samplingFactor i slice) es.
Proof.
  intros Hy Hx.
  pose (e := {| e_i := i; e_slice := slice; e_y := y; e_x := x |}).
  assert (Hkeep : JS.lt (e_value e) (-800) = false ->
                  Forall (fromSlice samplingFactor i slice) [e]).
  { intros Hv. constructor; [|constructor].
    unfold fromSlice; simpl. repeat split; assumption. }
  pose proof (push_appended i slice y x) as Hpush. cbv zeta in Hpush.
  fold e in Hpush.
  unfold samplePixel.
  change (JS.get (getPixelData (image slice))
                 (y * columns (image slice) + x)) with (e_value e).
  destruct (JS.lt (e_value e) (-800)) eqn:Hair.
  - exists []. split; [apply appended_refl | constructor].
  - specialize (Hkeep eq_refl).
    unfold classColor, lungColor, softTissueColor, boneColor in Hpush.
    destruct (JS.lt (e_value e) (-100)) eqn:Hlung.
    + unfold Math_random.
      destruct (Qgt_bool (rand (draws a)) (1 # 10)).
      * exists []. split; [|constructor].
        split; simpl; rewrite app_nil_r; reflexivity.
      * exists [e]. split; [|exact Hkeep].
        destruct (Hpush a) as [Hv Hc]. split; simpl in *; assumption.
    + destruct (JS.lt (e_value e) 200) eqn:Hsoft.
      * unfold Math_random.
        destruct (Qgt_bool (rand (draws a)) (3 # 10)).
        -- exists []. split; [|constructor].
           split; simpl; rewrite app_nil_r; reflexivity.
        -- exists [e]. split; [|exact Hkeep].
           destruct (Hpush a) as [Hv Hc]. split; simpl in *; assumption.
      * exists [e]. split; [apply Hpush | exact Hkeep].
Qed.

(** What the loops over one slice append. *)
Lemma sampleSlice_appended (i : Z) (slice : Slice) (a : Buffers) :
  exists es,
    appended totalHeight a
             (sampleSlice rand samplingFactor totalHeight i slice a) es /\
    Forall (fromSlice samplingFactor i slice) es.
Proof.
  unfold sampleSlice. cbv zeta. rewrite for_loop_fold.
  apply fold_appended with
    (body := fun y => JS.for_loop (columns (image slice)) samplingFactor
               (fun x => samplePixel rand (getPixelData (image slice))
                  (columns (image slice))
                  (inject_Z (columns (image slice)) / 2)%Q
                  (inject_Z (rows (image slice)) / 2)%Q
                  (inject_Z (i * sliceHeight) - inject_Z totalHeight / 2)%Q
                  y x)).
  intros y a' Hy. rewrite for_loop_fold.
  apply fold_appended with
    (body := fun x => samplePixel rand (getPixelData (image slice))
                  (columns (image slice))
                  (inject_Z (columns (image slice)) / 2)%Q
                  (inject_Z (rows (image slice)) / 2)%Q
                  (inject_Z (i * sliceHeight) - inject_Z totalHeight / 2)%Q
                  y x).
  intros x a'' Hx. apply samplePixel_appended; assumption.
Qed.

End Sampler.

(** What the whole reconstruction appends to the empty buffers. *)
Lemma sampleVolume_appended (rand : nat -> Q) (samplingFactor : Z)
      (slices : list Slice) :
  exists es,
    vertices (sampleVolume rand samplingFactor slices) =
      flat3 (map (e_point (Z.of_nat (length slices) * sliceHeight)) es) /\
    colors (sampleVolume rand samplingFactor slices) =
      flat3 (map e_color es) /\
    Forall (fromStack samplingFactor slices) es.
Proof.
  unfold sampleVolume. cbv zeta. rewrite for_loop_fold.
  destruct (fold_appended (Z.of_nat (length slices) * sliceHeight)
              (fromStack samplingFactor slices)
              (fun i a =>
                 match JS.get slices i with
                 | Some slice =>
                     sampleSlice rand samplingFactor
                       (Z.of_nat (length slices) * sliceHeight) i slice a
                 | None => a
                 end)
              (JS.loop_range (Z.of_nat (length slices)) 1))
    with (a := emptyBuffers) as [es [[Hv Hc] HF]].
  - intros i a _. destruct (JS.get slices i) as [slice|] eqn:Hget.
    + destruct (sampleSlice_appended rand samplingFactor
                  (Z.of_nat (length slices) * sliceHeight) i slice a)
        as [es [Happ HF]].
      exists es. split; [exact Happ|].
      eapply Forall_impl; [|exact HF].
      intros e He. exists i, slice. split; assumption.
    + exists []. split; [apply appended_refl | constructor].
  - exists es. simpl in Hv, Hc. repeat split; assumption.
Qed.

Lemma flat3_length (l : list (Q * Q * Q)) :
  length (flat3 l) = (3 * length l)%nat.
Proof.
  induction l as [|p l IH]; simpl; [reflexivity | rewrite IH; lia].
Qed.

(** Reading inside the bounds of an array gives an entry. *)
Lemma get_in_bounds {A : Type} (arr : list A) (k : Z) :
  0 <= k < Z.of_nat (length arr) -> exists v, JS.get arr k = Some v.
Proof.
  intros Hk. unfold JS.get. destruct (Z.ltb_spec k 0); [lia|].
  destruct (nth_error arr (Z.to_nat k)) eqn:Hn; [eauto|].
  apply nth_error_None in Hn. lia.
Qed.

Lemma get_In {A : Type} (arr : list A) (k : Z) (v : A) :
  JS.get arr k = Some v -> In v arr /\ 0 <= k < Z.of_nat (length arr).
Proof.
  unfold JS.get. destruct (Z.ltb_spec k 0); [discriminate|].
  intros Hn. split; [eapply nth_error_In; eassumption|].
  assert (Z.to_nat k < length arr)%nat
    by (apply nth_error_Some; congruence).
  lia.
Qed.

(** In a well-formed slice every pixel index that the loops compute lies
    inside the pixel array. *)
Lemma pixelIndex_in_bounds (samplingFactor : Z) (slice : Slice) (y x : Z) :
  0 < samplingFactor -> wellFormed slice ->
  In y (JS.loop_range (rows (image slice)) samplingFactor) ->
  In x (JS.loop_range (columns (image slice)) samplingFactor) ->
  0 <= y * columns (image slice) + x
    < Z.of_nat (length (getPixelData (image slice))).
Proof.
  intros Hs Hwf Hy Hx.
  apply loop_range_spec in Hy; [|exact Hs].
  apply loop_range_spec in Hx; [|exact Hs].
  unfold wellFormed in Hwf. rewrite Hwf.
  destruct Hy as [Hy _], Hx as [Hx _]. nia.
Qed.

(* ================================================================== *)
(** * The scene *)
(* ================================================================== *)

Lemma clearVolume_loop_children :
  forall fuel s,
    (length (THREE.children s) <= fuel + 2)%nat ->
    THREE.children (clearVolume_loop fuel s) = firstn 2 (THREE.children s).
Proof.
  induction fuel as [|fuel IH]; intros [ch] Hlen;
    cbn [clearVolume_loop THREE.children] in *.
  - symmetry. apply firstn_all2. lia.
  - destruct (Nat.ltb_spec 2 (length ch)) as [Hgt|Hle].
    + rewrite IH; cbn [THREE.remove_child THREE.children].
      * rewrite firstn_app, firstn_firstn, length_firstn.
        rewrite (Nat.min_l 2 (length ch)) by lia.
        replace (2 - 2)%nat with 0%nat by reflexivity.
        replace (Nat.min 2 2) with 2%nat by reflexivity.
        rewrite firstn_O, app_nil_r. reflexivity.
      * rewrite length_app, length_firstn, length_skipn.
        rewrite Nat.min_l by lia. lia.
    + cbn [THREE.children]. symmetry. apply firstn_all2. lia.
Qed.

(** The clearing loop keeps the first two children and nothing else. *)
Lemma clearVolume_children (s : THREE.Scene) :
  THREE.children (clearVolume s) = firstn 2 (THREE.children s).
Proof. apply clearVolume_loop_children. lia. Qed.

(** On a ready session and a stack that is not empty the call completes
    normally and leaves the first two children followed by the new point
    cloud. *)
Lemma createVolume_ready (rand : nat -> Q) (refs : Refs) (sc : THREE.Scene)
      (cam : THREE.PerspectiveCamera) (ctl : THREE.OrbitControls)
      (first : Slice) (rest : list Slice) :
  threeScene refs = Some sc ->
  threeCamera refs = Some cam ->
  threeControls refs = Some ctl ->
  createVolumeFromSlices rand refs (first :: rest) =
  (JS.Normal,
   {| threeScene :=
        Some {| THREE.children :=
                  firstn 2 (THREE.children sc) ++
                  [pointCloudOf (sampleVolume rand 4 (first :: rest))] |};
      threeCamera :=
        Some {| THREE.position_z :=
                  (inject_Z (JS.Math_max3 (columns (image first))
                                          (rows (image first))
                                          (Z.of_nat (length (first :: rest))
                                           * sliceHeight))
                   * (3 # 2))%Q |};
      threeControls := Some ctl |}).
Proof.
  intros Hsc Hcam Hctl. unfold createVolumeFromSlices.
  rewrite Hsc, Hcam, Hctl.
  destruct (Z.eqb_spec (Z.of_nat (length (first :: rest))) 0) as [H0|_].
  - simpl in H0. lia.
  - cbv zeta. change (JS.get (first :: rest) 0) with (Some first).
    unfold THREE.add. rewrite clearVolume_children. reflexivity.
Qed.

Lemma flatten_from_total :
  forall pts cols index vs cs,
    0 <= index ->
    index + Z.of_nat (length pts) <= Z.of_nat (length cols) ->
    exists vs' cs',
      ThreeDViewer.flatten_from index pts cols vs cs = Some (vs', cs') /\
      length vs' = (length vs + 3 * length pts)%nat /\
      length cs' = (length cs + 3 * length pts)%nat.
Proof.
  induction pts as [|[[p0 p1] p2] pts IH]; intros cols index vs cs Hi Hlen;
    simpl in *.
  - exists vs, cs. repeat split; lia.
  - destruct (get_in_bounds cols index) as [[[c0 c1] c2] Hget]; [lia|].
    rewrite Hget.
    destruct (IH cols (index + 1) (vs ++ [p0; p1; p2]) (cs ++ [c0; c1; c2]))
      as [vs' [cs' [Hf [Hv Hc]]]]; [lia | lia |].
    exists vs', cs'. rewrite Hf. rewrite length_app in Hv, Hc. simpl in Hv, Hc.
    repeat split; lia.
Qed.

(** The update effect on a cloud that has points: the lights stay, every
    other child goes, and the new cloud is added. *)
Lemma updateEffect_shown (s : ThreeDViewer.Session) (sc : THREE.Scene)
      (cam : THREE.PerspectiveCamera) (vd : ThreeDViewer.VolumeData)
      (p : Q * Q * Q) (pts : list (Q * Q * Q)) :
  ThreeDViewer.scene s = Some sc ->
  ThreeDViewer.camera s = Some cam ->
  ThreeDViewer.points vd = Some (p :: pts) ->
  (length (p :: pts) <= length (ThreeDViewer.colors vd))%nat ->
  exists geo,
    ThreeDViewer.updateEffect s (Some vd) =
    (JS.Normal,
     {| ThreeDViewer.scene :=
          Some {| THREE.children :=
                    filter THREE.is_light (THREE.children sc) ++
                    [THREE.Points geo ThreeDViewer.pointsMaterial] |};
        ThreeDViewer.camera :=
          Some {| THREE.position_z :=
                    (ThreeDViewer.maxDimension (ThreeDViewer.dimensions vd)
                     * (3 # 2))%Q |};
        ThreeDViewer.controls := ThreeDViewer.controls s |}) /\
    length (THREE.position geo) = (3 * length (p :: pts))%nat /\
    length (THREE.color geo) = (3 * length (p :: pts))%nat.
Proof.
  intros Hsc Hcam Hpts Hlen. unfold ThreeDViewer.updateEffect.
  rewrite Hsc, Hpts, Hcam.
  destruct (Z.eqb_spec (Z.of_nat (length (p :: pts))) 0) as [H0|_];
    [simpl in H0; lia|].
  destruct (flatten_from_total (p :: pts) (ThreeDViewer.colors vd) 0 [] [])
    as [vs [cs [Hf [Hv Hc]]]]; [lia | lia |].
  rewrite Hf. exists {| THREE.position := vs; THREE.color := cs |}.
  simpl in *. repeat split; assumption.
Qed.

Lemma filter_light_idem (l : list THREE.Object3D) (o : THREE.Object3D) :
  THREE.is_points o = true ->
  filter THREE.is_light (filter THREE.is_light l ++ [o]) =
  filter THREE.is_light l.
Proof.
  intros Ho. rewrite filter_app. simpl.
  assert (THREE.is_light o = false) as -> by (destruct o; simpl in *; congruence).
  rewrite app_nil_r. clear Ho.
  induction l as [|x l IH]; simpl; [reflexivity|].
  destruct (THREE.is_light x) eqn:Hx; simpl; rewrite ?Hx, ?IH; reflexivity.
Qed.

Lemma pointClouds_lights (l : list THREE.Object3D) (o : THREE.Object3D) :
  THREE.is_points o = true ->
  filter THREE.is_points (filter THREE.is_light l ++ [o]) = [o].
Proof.
  intros Ho. rewrite filter_app. simpl. rewrite Ho.
  replace (filter THREE.is_points (filter THREE.is_light l)) with
    (@nil THREE.Object3D); [reflexivity|].
  induction l as [|x l IH]; simpl; [reflexivity|].
  destruct x; simpl; assumption.
Qed.


(* ================================================================== *)
(** * Error handling *)
(* ================================================================== *)

(** C3, as stated, fails: on an empty stack the reconstruction, run on a
    freshly set up session, completes normally and raises no
    [EmptyStackError]. *)
Lemma empty_stack_raises_nothing :
  createVolumeFromSlices alwaysKeep freshRefs [] = (JS.Normal, freshRefs) /\
  fst (createVolumeFromSlices alwaysKeep freshRefs []) <>
    JS.Throw JS.EmptyStackError.
Proof. split; [reflexivity | discriminate]. Qed.

(** C3, amended: on an empty stack [createVolumeFromSlices] returns at
    once, without raising an error; no point cloud is built and the refs are
    left as they were.  The 3D effect does not even call it, and the upload
    handler returns at once on an empty selection, leaving the state as it
    was. *)
Theorem empty_stack_returns_silently :
  forall (rand : nat -> Q) (refs : Refs) (st : State) (viewMode : ViewMode)
         (threeDRef : bool),
    createVolumeFromSlices rand refs [] = (JS.Normal, refs) /\
    effect3D rand viewMode threeDRef refs [] = (JS.Normal, refs) /\
    handleFileUpload st [] = st.
Proof.
  intros rand refs st viewMode threeDRef. repeat split.
  - unfold createVolumeFromSlices. destruct (threeScene refs); reflexivity.
  - unfold effect3D. destruct viewMode; [reflexivity|].
    rewrite andb_false_r. reflexivity.
Qed.




(* ================================================================== *)
(** * Replacing the volume *)
(* ================================================================== *)





(* ================================================================== *)
(** * The point cloud *)
(* ================================================================== *)

Lemma fold_left_ext {A B : Type} (f g : A -> B -> A) (l : list B) :
  (forall a x, f a x = g a x) ->
  forall a, fold_left f l a = fold_left g l a.
Proof.
  intros Hfg. induction l as [|x l IH]; intros a; simpl.
  - reflexivity.
  - rewrite Hfg. apply IH.
Qed.

(** The [k]-th group of three entries of a flat array. *)
Lemma flat3_nth (l : list (Q * Q * Q)) :
  forall k p,
    nth_error l k = Some p ->
    firstn 3 (skipn (3 * k) (flat3 l)) = flat3 [p].
Proof.
  induction l as [|q l IH]; intros k p Hk.
  - destruct k; discriminate.
  - destruct k as [|k].
    + simpl in Hk. injection Hk as ->. reflexivity.
    + simpl in Hk. replace (3 * S k)%nat with (3 * k + 3)%nat by lia.
      change (flat3 (q :: l)) with
        ([fst (fst q); snd (fst q); snd q] ++ flat3 l).
      rewrite <- skipn_skipn.
      change (skipn 3 ([fst (fst q); snd (fst q); snd q] ++ flat3 l))
        with (flat3 l).
      apply IH. exact Hk.
Qed.

(** C2: for every stack, every random source and every positive sampling
    stride, each point of the output comes from a pixel that the loops
    visit (both coordinates multiples of the stride, inside the slice) and
    whose value is not below the air cutoff of -800; in a well-formed slice
    that pixel has a value, and the value is at least -800. *)
Theorem air_pixels_never_emitted :
  forall (rand : nat -> Q) (samplingStride : Z) (slices : list Slice),
    0 < samplingStride ->
    exists es,
      vertices (sampleVolume rand samplingStride slices) =
        flat3 (map (e_point (Z.of_nat (length slices) * sliceHeight)) es) /\
      colors (sampleVolume rand samplingStride slices) =
        flat3 (map e_color es) /\
      Forall (fun e =>
                JS.get slices (e_i e) = Some (e_slice e) /\
                (0 <= e_x e < columns (image (e_slice e)) /\
                 e_x e mod samplingStride = 0) /\
                (0 <= e_y e < rows (image (e_slice e)) /\
                 e_y e mod samplingStride = 0) /\
                (forall v, e_value e = Some v -> -800 <= v) /\
                (wellFormed (e_slice e) ->
                 exists v, e_value e = Some v /\ -800 <= v))
             es.
Proof.
  intros rand s slices Hs.
  destruct (sampleVolume_appended rand s slices) as [es [Hv [Hc HF]]].
  exists es. split; [exact Hv|]. split; [exact Hc|].
  eapply Forall_impl; [|exact HF].
  intros e [i [slice [Hget [Hi [Hsl [Hy [Hx Hkept]]]]]]]. subst i slice.
  pose proof Hy as Hy'. pose proof Hx as Hx'.
  apply loop_range_spec in Hy'; [|exact Hs].
  apply loop_range_spec in Hx'; [|exact Hs].
  assert (Hval : forall v, e_value e = Some v -> -800 <= v).
  { intros v Hev. rewrite Hev in Hkept. simpl in Hkept.
    apply Z.ltb_ge in Hkept. exact Hkept. }
  repeat split; try assumption; try tauto.
  intros Hwf.
  pose proof (pixelIndex_in_bounds s (e_slice e) _ _ Hs Hwf Hy Hx) as Hb.
  destruct (get_in_bounds _ _ Hb) as [v Hv'].
  exists v. split; [exact Hv' | apply Hval; exact Hv'].
Qed.

Lemma air_pixels_never_emitted_witness :
  exists es,
    vertices (sampleVolume alwaysKeep 4 airBoneStack) =
      flat3 (map (e_point (Z.of_nat (length airBoneStack) * sliceHeight)) es) /\
    colors (sampleVolume alwaysKeep 4 airBoneStack) = flat3 (map e_color es) /\
    Forall (fun e =>
              JS.get airBoneStack (e_i e) = Some (e_slice e) /\
              (0 <= e_x e < columns (image (e_slice e)) /\ e_x e mod 4 = 0) /\
              (0 <= e_y e < rows (image (e_slice e)) /\ e_y e mod 4 = 0) /\
              (forall v, e_value e = Some v -> -800 <= v) /\
              (wellFormed (e_slice e) ->
               exists v, e_value e = Some v /\ -800 <= v))
           es.
Proof.
  apply (air_pixels_never_emitted alwaysKeep 4 airBoneStack). reflexivity.
Defined.


(** C7: for every stack and every outcome of the random decisions the two
    arrays have the same length, three entries per point, and are laid out
    over one and the same sequence of retained pixels: the [k]-th group of
    three coordinates is the point of the [k]-th retained pixel and the
    [k]-th group of three colour components is the colour of the class of
    that same pixel.  [ThreeDViewer] reads volume data the same way: with a
    colour for every point, its two flat arrays have equal length. *)
Theorem points_and_colors_are_parallel :
  (forall (rand : nat -> Q) (samplingFactor : Z) (slices : list Slice),
      length (vertices (sampleVolume rand samplingFactor slices)) =
      length (colors (sampleVolume rand samplingFactor slices)) /\
      exists es,
        length (vertices (sampleVolume rand samplingFactor slices)) =
          (3 * length es)%nat /\
        Forall (fromStack samplingFactor slices) es /\
        forall k e,
          nth_error es k = Some e ->
          firstn 3 (skipn (3 * k)
                      (vertices (sampleVolume rand samplingFactor slices))) =
            flat3 [e_point (Z.of_nat (length slices) * sliceHeight) e] /\
          firstn 3 (skipn (3 * k)
                      (colors (sampleVolume rand samplingFactor slices))) =
            flat3 [rgb (classColor (e_value e))])
  /\
  (forall (pts cols : list (Q * Q * Q)),
      (length pts <= length cols)%nat ->
      exists vs cs,
        ThreeDViewer.flatten_from 0 pts cols [] [] = Some (vs, cs) /\
        length vs = length cs /\ length vs = (3 * length pts)%nat).
Proof.
  split.
  - intros rand s slices.
    destruct (sampleVolume_appended rand s slices) as [es [Hv [Hc HF]]].
    split.
    + rewrite Hv, Hc, !flat3_length, !length_map. reflexivity.
    + exists es. split; [rewrite Hv, flat3_length, length_map; reflexivity|].
      split; [exact HF|].
      intros k e Hk. rewrite Hv, Hc. split.
      * apply flat3_nth. rewrite nth_error_map, Hk. reflexivity.
      * apply (flat3_nth (map e_color es) k (e_color e)).
        rewrite nth_error_map, Hk. reflexivity.
  - intros pts cols Hlen.
    destruct (flatten_from_total pts cols 0 [] []) as [vs [cs [Hf [Hv Hc]]]];
      [lia | lia |].
    exists vs, cs. simpl in Hv, Hc. repeat split; [exact Hf | lia | lia].
Qed.

Lemma points_and_colors_are_parallel_witness :
  exists vs cs,
    ThreeDViewer.flatten_from 0 [(1, 2, 3)%Q] [(1, 1, 0)%Q] [] [] =
      Some (vs, cs) /\
    length vs = length cs /\ length vs = 3%nat.
Proof.
  exact (proj2 points_and_colors_are_parallel
               [(1, 2, 3)%Q] [(1, 1, 0)%Q] (le_n 1)).
Defined.


Lemma boneSlice_wellFormed : wellFormed boneSlice.
Proof. reflexivity. Defined.


(* ================================================================== *)
(** * The air and bone scenario *)
(* ================================================================== *)

(** As the source runs the loops, with its sampling factor 4, the stack
    of the scenario gives one point (three coordinates): only pixel (0, 0)
    of each slice of 4 by 4 pixels is visited. *)
Lemma airBone_stack_at_factor_four :
  option_map (fun sc => length (shownVertices sc))
    (threeScene (snd (createVolumeFromSlices alwaysKeep freshRefs
                                             airBoneStack))) =
    Some (3 * 1)%nat.
Proof. vm_compute. reflexivity. Qed.

(** C1: on the stack of two slices of 4 by 4 pixels, all -1000 below and
    all 500 above, with sampling stride 1 and for every random source
    (the one that always keeps among them), the reconstruction produces
    exactly 16 points: the loops append nothing for slice 0, and for
    slice 1 its sixteen pixels row by row, each with the bone colour.  All
    16 points have the z coordinate [1 * 1 - 2 / 2 = 0], whereas a point of
    slice 0 would have had -1. *)
Theorem airBone_scenario :
  forall rand : nat -> Q,
    (forall a, sampleSlice rand 1 2 0 airSlice a = a) /\
    sampleVolume rand 1 airBoneStack =
      sampleSlice rand 1 2 1 boneSlice emptyBuffers /\
    vertices (sampleVolume rand 1 airBoneStack) =
      flat3 (map (e_point 2) allBonePixels) /\
    colors (sampleVolume rand 1 airBoneStack) =
      flat3 (repeat (rgb boneColor) 16) /\
    length allBonePixels = 16%nat /\
    length (vertices (sampleVolume rand 1 airBoneStack)) = (3 * 16)%nat /\
    length (colors (sampleVolume rand 1 airBoneStack)) = (3 * 16)%nat /\
    Forall (fun e => fromSlice 1 1 boneSlice e /\
                     e_color e = rgb boneColor /\
                     (zOf (e_point 2 e) == 1 * 1 - 2 / 2)%Q /\
                     (zOf (e_point 2 e) == 0)%Q)
           allBonePixels /\
    (zOf (e_point 2 {| e_i := 0; e_slice := airSlice; e_y := 0; e_x := 0 |})
     == -1)%Q /\
    ~ (zOf (e_point 2 (bonePixel 0 0)) ==
       zOf (e_point 2 {| e_i := 0; e_slice := airSlice; e_y := 0; e_x := 0 |}))%Q.
Proof.
  intros rand.
  split; [intros a; vm_compute; reflexivity|].
  split; [vm_compute; reflexivity|].
  split; [vm_compute; reflexivity|].
  split; [vm_compute; reflexivity|].
  split; [reflexivity|].
  split; [vm_compute; reflexivity|].
  split; [vm_compute; reflexivity|].
  split; [|split; [vm_compute; reflexivity | vm_compute; discriminate]].
  apply Forall_forall. intros e Hin. simpl in Hin.
  repeat (destruct Hin as [<- | Hin];
          [ split; [|split; [|split]; vm_compute; reflexivity];
            unfold fromSlice;
            split; [reflexivity|]; split; [reflexivity|];
            split; [vm_compute; auto 10|];
            split; [vm_compute; auto 10 | reflexivity]
          | ]).
  contradiction.
Qed.

(* ================================================================== *)
(** * The order of the slices *)
(* ================================================================== *)

Section Sorting.

Context {A : Type}.
Variable cmp : A -> A -> JS.Number.

Lemma sort_insert_perm (x : A) (l : list A) :
  Permutation (JS.sort_insert cmp x l) (x :: l).
Proof.
  induction l as [|y l IH]; simpl.
  - apply Permutation_refl.
  - destruct (JS.positive_result (cmp x y)).
    + eapply perm_trans; [apply perm_skip, IH | apply perm_swap].
    + apply Permutation_refl.
Qed.

Lemma sort_perm (l : list A) : Permutation (JS.sort cmp l) l.
Proof.
  induction l as [|x l IH]; simpl.
  - apply perm_nil.
  - eapply perm_trans; [apply sort_insert_perm | apply perm_skip, IH].
Qed.

End Sorting.

Lemma positive_byInstanceNumber (x y : Slice) :
  numericKey x -> numericKey y ->
  JS.positive_result (byInstanceNumber x y) = (keyOf y <? keyOf x).
Proof.
  unfold numericKey, byInstanceNumber. intros -> ->. simpl.
  destruct (Z.ltb_spec 0 (keyOf x - keyOf y)), (Z.ltb_spec (keyOf y) (keyOf x));
    (reflexivity || lia).
Qed.

Lemma sort_insert_sorted (x : Slice) (l : list Slice) :
  numericKey x -> Forall numericKey l ->
  StronglySorted keyLe l ->
  StronglySorted keyLe (JS.sort_insert byInstanceNumber x l).
Proof.
  intros Hx Hl Hs. induction Hs as [|y l Hs IH Hy]; simpl.
  - repeat constructor.
  - pose proof (Forall_inv Hl) as Hny. pose proof (Forall_inv_tail Hl) as Hnl.
    rewrite (positive_byInstanceNumber x y Hx Hny).
    destruct (Z.ltb_spec (keyOf y) (keyOf x)) as [Hlt|Hge].
    + constructor; [apply IH; exact Hnl|].
      eapply Permutation_Forall;
        [apply Permutation_sym, sort_insert_perm|].
      constructor; [unfold keyLe; lia | exact Hy].
    + constructor; [constructor; assumption|].
      constructor; [exact Hge|].
      eapply Forall_impl; [|exact Hy]. unfold keyLe. intros z Hz. lia.
Qed.

Lemma sort_numeric (l : list Slice) :
  Forall numericKey l -> Forall numericKey (JS.sort byInstanceNumber l).
Proof.
  intros Hl. eapply Permutation_Forall;
    [apply Permutation_sym, sort_perm | exact Hl].
Qed.

Lemma sort_sorted (l : list Slice) :
  Forall numericKey l -> StronglySorted keyLe (JS.sort byInstanceNumber l).
Proof.
  induction l as [|x l IH]; intros Hl; simpl.
  - constructor.
  - apply sort_insert_sorted.
    + exact (Forall_inv Hl).
    + apply sort_numeric. exact (Forall_inv_tail Hl).
    + apply IH. exact (Forall_inv_tail Hl).
Qed.

(** Inserting a slice does not change the order among the slices of any
    one key. *)
Lemma sort_insert_stable (k : Z) (x : Slice) (l : list Slice) :
  numericKey x -> Forall numericKey l ->
  filter (hasKey k) (JS.sort_insert byInstanceNumber x l) =
  filter (hasKey k) (x :: l).
Proof.
  intros Hx Hl. induction l as [|y l IH]; [reflexivity|].
  pose proof (Forall_inv Hl) as Hny. pose proof (Forall_inv_tail Hl) as Hnl.
  cbn [JS.sort_insert]. rewrite (positive_byInstanceNumber x y Hx Hny).
  destruct (Z.ltb_spec (keyOf y) (keyOf x)) as [Hlt|Hge]; [|reflexivity].
  cbn [filter]. rewrite (IH Hnl). cbn [filter]. unfold hasKey.
  destruct (Z.eqb_spec (keyOf y) k), (Z.eqb_spec (keyOf x) k);
    (reflexivity || lia).
Qed.

Lemma sort_stable (k : Z) (l : list Slice) :
  Forall numericKey l ->
  filter (hasKey k) (JS.sort byInstanceNumber l) = filter (hasKey k) l.
Proof.
  induction l as [|x l IH]; intros Hl; [reflexivity|].
  cbn [JS.sort]. rewrite sort_insert_stable.
  - cbn [filter]. rewrite (IH (Forall_inv_tail Hl)). reflexivity.
  - exact (Forall_inv Hl).
  - apply sort_numeric. exact (Forall_inv_tail Hl).
Qed.

(** An ascending arrangement is determined by the order it gives to the
    slices of each key: whatever stable sort the engine runs, it returns
    the same array. *)
Lemma hasKey_self (s : Slice) : hasKey (keyOf s) s = true.
Proof. apply Z.eqb_refl. Qed.

Lemma sorted_stable_unique :
  forall l1 l2 : list Slice,
    StronglySorted keyLe l1 -> StronglySorted keyLe l2 ->
    (forall k, filter (hasKey k) l1 = filter (hasKey k) l2) ->
    l1 = l2.
Proof.
  induction l1 as [|x l1 IH]; intros l2 S1 S2 H.
  - destruct l2 as [|y l2]; [reflexivity|].
    specialize (H (keyOf y)). cbn [filter] in H.
    rewrite hasKey_self in H. discriminate.
  - destruct l2 as [|y l2].
    + specialize (H (keyOf x)). cbn [filter] in H.
      rewrite hasKey_self in H. discriminate.
    + apply StronglySorted_inv in S1. destruct S1 as [S1 Hx].
      apply StronglySorted_inv in S2. destruct S2 as [S2 Hy].
      rewrite Forall_forall in Hx, Hy.
      assert (Hyx : keyOf y <= keyOf x).
      { assert (Hin : In x (filter (hasKey (keyOf x)) (y :: l2))).
        { rewrite <- H. cbn [filter]. rewrite hasKey_self.
          left. reflexivity. }
        apply filter_In in Hin. destruct Hin as [[<- | Hin] _];
          [lia | apply Hy; exact Hin]. }
      assert (Hxy : keyOf x <= keyOf y).
      { assert (Hin : In y (filter (hasKey (keyOf y)) (x :: l1))).
        { rewrite H. cbn [filter]. rewrite hasKey_self.
          left. reflexivity. }
        apply filter_In in Hin. destruct Hin as [[<- | Hin] _];
          [lia | apply Hx; exact Hin]. }
      assert (Hk : keyOf x = keyOf y) by lia.
      pose proof (H (keyOf x)) as Hhead. cbn [filter] in Hhead.
      rewrite hasKey_self in Hhead. rewrite Hk, hasKey_self in Hhead.
      injection Hhead as Hhd Htl. subst y. f_equal.
      apply IH; [exact S1 | exact S2 |].
      intros k. destruct (Z.eq_dec k (keyOf x)) as [->|Hne].
      * exact Htl.
      * specialize (H k). cbn [filter] in H.
        assert (Hno : hasKey k x = false)
          by (unfold hasKey; apply Z.eqb_neq; congruence).
        rewrite Hno in H. exact H.
Qed.

(** When every load succeeds, the slices arrive in the order of the
    files, each with its position as index. *)
Lemma loads_arrive :
  forall (uploaded : list File) (images : list Image) (i : Z),
    map loadImage uploaded = map Some images ->
    JS.Promise_all (JS.map_index_from loadSlice i uploaded) =
      Some (JS.map_index_from arrivedSlice i images).
Proof.
  induction uploaded as [|f uploaded IH]; intros [|im images] i Hmap;
    try discriminate; [reflexivity|].
  simpl in Hmap. injection Hmap as Hf Hrest.
  cbn [JS.map_index_from JS.Promise_all]. unfold loadSlice at 1.
  rewrite Hf, (IH images (i + 1) Hrest). reflexivity.
Qed.

Lemma arrived_shape :
  forall (images : list Image) (i : Z),
    map image (JS.map_index_from arrivedSlice i images) = images /\
    map index (JS.map_index_from arrivedSlice i images) =
      map (fun k => i + Z.of_nat k) (seq 0 (length images)) /\
    Forall (fun s => instanceNumber s = arrivalKey (index s) (image s))
           (JS.map_index_from arrivedSlice i images).
Proof.
  induction images as [|im images IH]; intros i.
  - repeat split; constructor.
  - destruct (IH (i + 1)) as [Him [Hidx HF]].
    cbn [JS.map_index_from map length seq]. rewrite Him, Hidx.
    repeat split.
    + f_equal; [unfold arrivedSlice; simpl; lia|].
      rewrite <- seq_shift, map_map. apply map_ext. intros k. lia.
    + constructor; [reflexivity | exact HF].
Qed.

Lemma arrived_numeric :
  forall (images : list Image) (i : Z),
    Forall (fun im => x00200013 im <> Some JS.NaN) images ->
    Forall numericKey (JS.map_index_from arrivedSlice i images).
Proof.
  induction images as [|im images IH]; intros i Him; [constructor|].
  cbn [JS.map_index_from]. constructor.
  - pose proof (Forall_inv Him) as Hn.
    unfold numericKey, keyOf, arrivedSlice, arrivalKey. simpl.
    destruct (x00200013 im) as [[z|]|] eqn:Htag;
      [reflexivity | congruence | reflexivity].
  - apply IH. exact (Forall_inv_tail Him).
Qed.

(** C5: when the files of a selection that is not empty have all been
    loaded, the slices stored by the upload handler are the arrived slices
    (one per file, in order of arrival indexed from 0, the sort key of each
    being its instance number or, when it has none, its arrival index)
    rearranged so that the keys ascend, slices of equal key keeping their
    order of arrival; no other arrangement is ascending and keeps that
    order.  The keys are taken to be numbers: no instance number string is
    one that [parseInt] turns into [NaN]. *)
Theorem normalizer_sorts_by_instance_number :
  forall (st : State) (uploaded : list File) (images : list Image),
    uploaded <> [] ->
    map loadImage uploaded = map Some images ->
    Forall (fun im => x00200013 im <> Some JS.NaN) images ->
    exists arrived,
      map image arrived = images /\
      map index arrived = map Z.of_nat (seq 0 (length images)) /\
      Forall (fun s => instanceNumber s = arrivalKey (index s) (image s) /\
                       numericKey s) arrived /\
      Permutation (slices (handleFileUpload st uploaded)) arrived /\
      StronglySorted keyLe (slices (handleFileUpload st uploaded)) /\
      (forall k, filter (hasKey k) (slices (handleFileUpload st uploaded)) =
                 filter (hasKey k) arrived) /\
      (forall other,
          StronglySorted keyLe other ->
          (forall k, filter (hasKey k) other = filter (hasKey k) arrived) ->
          other = slices (handleFileUpload st uploaded)).
Proof.
  intros st uploaded images Hne Hload Hnum.
  exists (JS.map_index_from arrivedSlice 0 images).
  destruct (arrived_shape images 0) as [Him [Hidx HF]].
  pose proof (arrived_numeric images 0 Hnum) as Hkeys.
  assert (Hout : slices (handleFileUpload st uploaded) =
                 JS.sort byInstanceNumber
                         (JS.map_index_from arrivedSlice 0 images)).
  { unfold handleFileUpload.
    destruct (Z.eqb_spec (Z.of_nat (length uploaded)) 0) as [H0|_].
    - destruct uploaded; [congruence | simpl in H0; lia].
    - unfold JS.map_index. rewrite (loads_arrive uploaded images 0 Hload).
      reflexivity. }
  rewrite Hout. split; [exact Him|]. split; [exact Hidx|].
  split; [|split; [|split; [|split]]].
  - apply Forall_forall. intros s Hs. rewrite Forall_forall in HF, Hkeys.
    split; [apply HF | apply Hkeys]; exact Hs.
  - apply sort_perm.
  - apply sort_sorted. exact Hkeys.
  - intros k. apply sort_stable. exact Hkeys.
  - intros other Hsorted Hstable.
    apply sorted_stable_unique;
      [exact Hsorted | apply sort_sorted; exact Hkeys |].
    intros k. rewrite Hstable. symmetry. apply sort_stable. exact Hkeys.
Qed.

(** Three files arriving as instance 3, no instance number and instance 1
    are stored in the order of their keys 1, 1, 3: second file, third file,
    first file. *)
Example threeFiles_order :
  map index (slices (handleFileUpload initialState threeFiles)) = [1; 2; 0].
Proof. reflexivity. Qed.

Lemma threeFiles_numeric :
  Forall (fun im => x00200013 im <> Some JS.NaN)
         [taggedImage 3; uniformImage 4 4 0; taggedImage 1].
Proof. repeat constructor; discriminate. Defined.

Lemma normalizer_sorts_by_instance_number_witness :
  exists arrived,
    map image arrived = [taggedImage 3; uniformImage 4 4 0; taggedImage 1] /\
    map index arrived = map Z.of_nat (seq 0 3) /\
    Forall (fun s => instanceNumber s = arrivalKey (index s) (image s) /\
                     numericKey s) arrived /\
    Permutation (slices (handleFileUpload initialState threeFiles)) arrived /\
    StronglySorted keyLe (slices (handleFileUpload initialState threeFiles)) /\
    (forall k, filter (hasKey k)
                 (slices (handleFileUpload initialState threeFiles)) =
               filter (hasKey k) arrived) /\
    (forall other,
        StronglySorted keyLe other ->
        (forall k, filter (hasKey k) other = filter (hasKey k) arrived) ->
        other = slices (handleFileUpload initialState threeFiles)).
Proof.
  apply (normalizer_sorts_by_instance_number initialState threeFiles
           [taggedImage 3; uniformImage 4 4 0; taggedImage 1]).
  - discriminate.
  - reflexivity.
  - exact threeFiles_numeric.
Defined.

(* ================================================================== *)
(** * The sampler: which pixels are kept *)
(* ================================================================== *)

Lemma subseq_refl {A : Type} (l : list A) : subseq l l.
Proof.
  induction l; [apply subseq_nil | apply subseq_keep; assumption].
Qed.

Lemma subseq_nil_l {A : Type} (l : list A) : subseq [] l.
Proof.
  induction l; [apply subseq_nil | apply subseq_skip; assumption].
Qed.

Lemma subseq_app {A : Type} (l1 l2 l3 l4 : list A) :
  subseq l1 l2 -> subseq l3 l4 -> subseq (l1 ++ l3) (l2 ++ l4).
Proof.
  intros H12 H34. induction H12; simpl.
  - exact H34.
  - apply subseq_skip. assumption.
  - apply subseq_keep. assumption.
Qed.

Lemma subseq_length {A : Type} (l1 l2 : list A) :
  subseq l1 l2 -> (length l1 <= length l2)%nat.
Proof. induction 1; simpl; lia. Qed.

Lemma subseq_In {A : Type} (l1 l2 : list A) (x : A) :
  subseq l1 l2 -> In x l1 -> In x l2.
Proof.
  induction 1; simpl; intros Hin.
  - contradiction.
  - right. auto.
  - destruct Hin; [left; assumption | right; auto].
Qed.

Lemma flat_map_nested {A B C : Type} (f : A -> list B) (g : B -> list C)
      (l : list A) :
  flat_map g (flat_map f l) = flat_map (fun x => flat_map g (f x)) l.
Proof.
  induction l as [|x l IH]; simpl; [reflexivity|].
  rewrite flat_map_app, IH. reflexivity.
Qed.

Lemma flat_map_singleton {A B : Type} (f : A -> B) (l : list A) :
  flat_map (fun x => [f x]) l = map f l.
Proof.
  induction l as [|x l IH]; simpl; [reflexivity | rewrite IH; reflexivity].
Qed.

Lemma lt_lung_soft (v : option Z) : JS.lt v (-100) = true -> JS.lt v 200 = true.
Proof.
  destruct v as [n|]; simpl; [|discriminate].
  intros H. apply Z.ltb_lt in H. apply Z.ltb_lt. lia.
Qed.

Lemma lt_air_lung (v : option Z) : JS.lt v (-800) = true -> JS.lt v (-100) = true.
Proof.
  destruct v as [n|]; simpl; [|discriminate].
  intros H. apply Z.ltb_lt in H. apply Z.ltb_lt. lia.
Qed.

Lemma boneLike_notAir (e : Emission) : boneLike e = true -> notAir e = true.
Proof.
  unfold boneLike, notAir. intros H.
  destruct (JS.lt (e_value e) (-800)) eqn:Hair; [|reflexivity].
  apply lt_air_lung, lt_lung_soft in Hair. rewrite Hair in H. discriminate.
Qed.

Lemma thin_app (rand : nat -> Q) (l1 l2 : list Emission) :
  forall k,
    thin rand k (l1 ++ l2) =
    thin rand k l1 ++ thin rand (k + length (filter drawn l1)) l2.
Proof.
  induction l1 as [|e l1 IH]; intros k; simpl.
  - rewrite Nat.add_0_r. reflexivity.
  - unfold drawn at 1.
    destruct (notAir e); simpl; [|apply IH].
    destruct (boneLike e); simpl; [rewrite IH; reflexivity|].
    rewrite IH. replace (S k + length (filter drawn l1))%nat
      with (k + S (length (filter drawn l1)))%nat by lia.
    destruct (Qgt_bool (rand k) (threshold e)); reflexivity.
Qed.

Section Kept.

Variable rand : nat -> Q.
Variable samplingFactor : Z.
Variable totalHeight : Z.

(** A loop whose iteration [x] appends the thinning of [g x] appends the
    thinning of all of them, the draws running on from one iteration to
    the next. *)
Lemma fold_thin {X : Type} (g : X -> list Emission)
      (body : X -> Buffers -> Buffers) (l : list X) :
  (forall x a,
      appended totalHeight a (body x a) (thin rand (draws a) (g x)) /\
      draws (body x a) = (draws a + length (filter drawn (g x)))%nat) ->
  forall a,
    appended totalHeight a (fold_left (fun a x => body x a) l a)
             (thin rand (draws a) (flat_map g l)) /\
    draws (fold_left (fun a x => body x a) l a) =
      (draws a + length (filter drawn (flat_map g l)))%nat.
Proof.
  intros Hbody. induction l as [|x l IH]; intros a; simpl.
  - split; [apply appended_refl | lia].
  - destruct (Hbody x a) as [H1 D1].
    destruct (IH (body x a)) as [H2 D2].
    rewrite thin_app, filter_app, length_app. split.
    + eapply appended_trans; [exact H1|]. rewrite <- D1. exact H2.
    + rewrite D2, D1. lia.
Qed.

Lemma samplePixel_thin (i : Z) (slice : Slice) (y x : Z) (a : Buffers) :
  appended totalHeight a
    (samplePixel rand (getPixelData (image slice)) (columns (image slice))
       (inject_Z (columns (image slice)) / 2)%Q
       (inject_Z (rows (image slice)) / 2)%Q
       (inject_Z (i * sliceHeight) - inject_Z totalHeight / 2)%Q y x a)
    (thin rand (draws a) [pixelAt i slice y x]) /\
  draws
    (samplePixel rand (getPixelData (image slice)) (columns (image slice))
       (inject_Z (columns (image slice)) / 2)%Q
       (inject_Z (rows (image slice)) / 2)%Q
       (inject_Z (i * sliceHeight) - inject_Z totalHeight / 2)%Q y x a) =
  (draws a + length (filter drawn [pixelAt i slice y x]))%nat.
Proof.
  pose (e := pixelAt i slice y x).
  pose proof (push_appended totalHeight i slice y x) as Hpush.
  cbv zeta in Hpush. fold (pixelAt i slice y x) in Hpush. fold e in Hpush.
  unfold samplePixel.
  change (JS.get (getPixelData (image slice))
                 (y * columns (image slice) + x)) with (e_value e).
  fold e. cbn [thin filter]. unfold drawn, threshold, notAir, boneLike.
  unfold classColor, lungColor, softTissueColor, boneColor in Hpush.
  destruct (JS.lt (e_value e) (-800)) eqn:Hair; cbn [negb andb].
  - split; [apply appended_refl | simpl; lia].
  - destruct (JS.lt (e_value e) (-100)) eqn:Hlung.
    + rewrite (lt_lung_soft _ Hlung). cbn [negb andb]. unfold Math_random.
      destruct (Qgt_bool (rand (draws a)) (1 # 10)).
      * split; [|simpl; lia].
        split; simpl; rewrite app_nil_r; reflexivity.
      * split; [|simpl; lia].
        destruct (Hpush a) as [Hv Hc]. split; simpl in *; assumption.
    + destruct (JS.lt (e_value e) 200) eqn:Hsoft; cbn [negb andb].
      * unfold Math_random.
        destruct (Qgt_bool (rand (draws a)) (3 # 10)).
        -- split; [|simpl; lia].
           split; simpl; rewrite app_nil_r; reflexivity.
        -- split; [|simpl; lia].
           destruct (Hpush a) as [Hv Hc]. split; simpl in *; assumption.
      * split; [apply Hpush | simpl; lia].
Qed.

Lemma sampleSlice_thin (i : Z) (slice : Slice) (a : Buffers) :
  appended totalHeight a
    (sampleSlice rand samplingFactor totalHeight i slice a)
    (thin rand (draws a) (visitedSlice samplingFactor i slice)) /\
  draws (sampleSlice rand samplingFactor totalHeight i slice a) =
    (draws a + length (filter drawn (visitedSlice samplingFactor i slice)))%nat.
Proof.
  unfold sampleSlice, visitedSlice. cbv zeta. rewrite for_loop_fold.
  apply fold_thin with
    (g := fun y => map (pixelAt i slice y)
                       (JS.loop_range (columns (image slice)) samplingFactor))
    (body := fun y => JS.for_loop (columns (image slice)) samplingFactor
               (fun x => samplePixel rand (getPixelData (image slice))
                  (columns (image slice))
                  (inject_Z (columns (image slice)) / 2)%Q
                  (inject_Z (rows (image slice)) / 2)%Q
                  (inject_Z (i * sliceHeight) - inject_Z totalHeight / 2)%Q
                  y x)).
  intros y a'. rewrite for_loop_fold.
  rewrite <- flat_map_singleton.
  apply fold_thin with
    (g := fun x => [pixelAt i slice y x])
    (body := fun x => samplePixel rand (getPixelData (image slice))
                  (columns (image slice))
                  (inject_Z (columns (image slice)) / 2)%Q
                  (inject_Z (rows (image slice)) / 2)%Q
                  (inject_Z (i * sliceHeight) - inject_Z totalHeight / 2)%Q
                  y x).
  intros x a''. apply samplePixel_thin.
Qed.

End Kept.

Lemma range_from_step1 (n : nat) :
  forall i, JS.range_from n i (i + Z.of_nat n) 1 =
            map (fun k => i + Z.of_nat k) (seq 0 n).
Proof.
  induction n as [|n IH]; intros i.
  - reflexivity.
  - cbn [JS.range_from]. destruct (Z.ltb_spec i (i + Z.of_nat (S n))); [|lia].
    cbn [seq map]. f_equal; [lia|].
    replace (i + Z.of_nat (S n)) with ((i + 1) + Z.of_nat n) by lia.
    rewrite IH. rewrite <- seq_shift, map_map.
    apply map_ext. intros k. lia.
Qed.

(** The loop over the slices takes the positions 0, 1, ... in turn. *)
Lemma loop_range_positions (n : nat) :
  JS.loop_range (Z.of_nat n) 1 = map Z.of_nat (seq 0 n).
Proof.
  unfold JS.loop_range. rewrite Nat2Z.id.
  exact (range_from_step1 n 0).
Qed.

Lemma get_middle (pre rest : list Slice) (r : Slice) :
  JS.get (pre ++ r :: rest) (Z.of_nat (length pre)) = Some r.
Proof.
  unfold JS.get. destruct (Z.ltb_spec (Z.of_nat (length pre)) 0); [lia|].
  rewrite Nat2Z.id, nth_error_app2, Nat.sub_diag by lia. reflexivity.
Qed.

(** A loop over the positions that reads [slices[i]] is a loop over the
    slices with their positions: every slice is met once, in order. *)
Lemma fold_positions {A : Type} (F : Z -> Slice -> A -> A) :
  forall (rest pre : list Slice) (a : A),
    fold_left (fun a i => match JS.get (pre ++ rest) i with
                          | Some s => F i s a
                          | None => a
                          end)
              (map Z.of_nat (seq (length pre) (length rest))) a =
    fold_left (fun a p => F (fst p) (snd p) a)
              (combine (map Z.of_nat (seq (length pre) (length rest))) rest) a.
Proof.
  induction rest as [|r rest IH]; intros pre a; [reflexivity|].
  cbn [length seq map combine fold_left fst snd].
  rewrite get_middle.
  specialize (IH (pre ++ [r]) (F (Z.of_nat (length pre)) r a)).
  rewrite <- app_assoc, length_app in IH. cbn [app length] in IH.
  rewrite Nat.add_1_r in IH. exact IH.
Qed.

(** The whole reconstruction: the pixels in the order of the loops,
    thinned by the draws in that order; and the number of draws made. *)
Lemma sampleVolume_thin (rand : nat -> Q) (samplingFactor : Z)
      (slices : list Slice) :
  vertices (sampleVolume rand samplingFactor slices) =
    flat3 (map (e_point (Z.of_nat (length slices) * sliceHeight))
               (thin rand 0 (visited samplingFactor slices))) /\
  colors (sampleVolume rand samplingFactor slices) =
    flat3 (map e_color (thin rand 0 (visited samplingFactor slices))) /\
  draws (sampleVolume rand samplingFactor slices) =
    length (filter drawn (visited samplingFactor slices)).
Proof.
  unfold sampleVolume. cbv zeta.
  rewrite for_loop_fold, loop_range_positions.
  pose proof (fold_positions
                (fun i slice a =>
                   sampleSlice rand samplingFactor
                     (Z.of_nat (length slices) * sliceHeight) i slice a)
                slices [] emptyBuffers) as Hfold.
  cbn [app length] in Hfold. cbv beta. rewrite Hfold. clear Hfold.
  destruct (fold_thin rand (Z.of_nat (length slices) * sliceHeight)
              (fun p => visitedSlice samplingFactor (fst p) (snd p))
              (fun p a =>
                 sampleSlice rand samplingFactor
                   (Z.of_nat (length slices) * sliceHeight) (fst p) (snd p) a)
              (positioned slices)) with (a := emptyBuffers)
    as [[Hv Hc] Hd].
  - intros p a. apply sampleSlice_thin.
  - unfold visited, positioned in *. cbn [length] in *.
    simpl in Hv, Hc, Hd. repeat split; assumption.
Qed.

Lemma Qgt_bool_false (u t : Q) : (u <= t)%Q -> Qgt_bool u t = false.
Proof.
  intros H. unfold Qgt_bool. apply Qle_bool_iff in H. rewrite H. reflexivity.
Qed.

Lemma Qgt_bool_true (u t : Q) : (t < u)%Q -> Qgt_bool u t = true.
Proof.
  intros H. unfold Qgt_bool.
  destruct (Qle_bool u t) eqn:E; [|reflexivity].
  apply Qle_bool_iff in E. exfalso. apply (Qlt_not_le _ _ H E).
Qed.

Lemma threshold_range (e : Emission) :
  (1 # 10 <= threshold e)%Q /\ (threshold e <= 3 # 10)%Q.
Proof.
  unfold threshold. destruct (JS.lt (e_value e) (-100)); split;
    (apply Qle_refl || (unfold Qle; simpl; lia)).
Qed.

Lemma thin_always (rand : nat -> Q) :
  (forall k, (rand k <= 1 # 10)%Q) ->
  forall l k, thin rand k l = filter notAir l.
Proof.
  intros Hr. induction l as [|e l IH]; intros k; simpl; [reflexivity|].
  destruct (notAir e); [|apply IH].
  destruct (boneLike e); [rewrite IH; reflexivity|].
  rewrite Qgt_bool_false, IH; [reflexivity|].
  eapply Qle_trans; [apply Hr | apply threshold_range].
Qed.

Lemma thin_never (rand : nat -> Q) :
  (forall k, (3 # 10 < rand k)%Q) ->
  forall l k, thin rand k l = filter boneLike l.
Proof.
  intros Hr. induction l as [|e l IH]; intros k; simpl; [reflexivity|].
  destruct (notAir e) eqn:Hair.
  - destruct (boneLike e); [rewrite IH; reflexivity|].
    rewrite Qgt_bool_true; [apply IH|].
    eapply Qle_lt_trans; [apply threshold_range | apply Hr].
  - destruct (boneLike e) eqn:Hb; [|apply IH].
    apply boneLike_notAir in Hb. congruence.
Qed.

Lemma thin_between (rand : nat -> Q) :
  forall l k,
    subseq (filter boneLike l) (thin rand k l) /\
    subseq (thin rand k l) (filter notAir l).
Proof.
  induction l as [|e l IH]; intros k; simpl.
  - split; apply subseq_nil.
  - destruct (notAir e) eqn:Hair.
    + destruct (boneLike e).
      * destruct (IH k). split; apply subseq_keep; assumption.
      * destruct (IH (S k)).
        destruct (Qgt_bool (rand k) (threshold e)).
        -- split; [assumption | apply subseq_skip; assumption].
        -- split; [apply subseq_skip | apply subseq_keep]; assumption.
    + destruct (boneLike e) eqn:Hb.
      * apply boneLike_notAir in Hb. congruence.
      * apply IH.
Qed.

(** The slices with their positions are the entries [slices[i]]. *)
Lemma positioned_from_In :
  forall (rest pre : list Slice) (i : Z) (s : Slice),
    In (i, s) (combine (map Z.of_nat (seq (length pre) (length rest))) rest)
    <-> JS.get (pre ++ rest) i = Some s /\ Z.of_nat (length pre) <= i.
Proof.
  induction rest as [|r rest IH]; intros pre i s.
  - cbn [length seq map combine In]. rewrite app_nil_r. split; [contradiction|].
    intros [Hget Hle]. apply get_In in Hget. lia.
  - cbn [length seq map combine In].
    specialize (IH (pre ++ [r]) i s).
    rewrite <- app_assoc, length_app in IH. cbn [app length] in IH.
    rewrite Nat.add_1_r in IH. rewrite IH. split.
    + intros [Heq | [Hget Hle]].
      * injection Heq as <- <-. split; [apply get_middle | lia].
      * split; [exact Hget | lia].
    + intros [Hget Hle].
      destruct (Z.eq_dec i (Z.of_nat (length pre))) as [->|Hne].
      * left. rewrite get_middle in Hget. congruence.
      * right. split; [exact Hget | lia].
Qed.

Lemma positioned_In (slices : list Slice) (i : Z) (s : Slice) :
  In (i, s) (positioned slices) <-> JS.get slices i = Some s.
Proof.
  unfold positioned. rewrite (positioned_from_In slices [] i s).
  cbn [app length]. split; [tauto|].
  intros Hget. split; [exact Hget|]. apply get_In in Hget. lia.
Qed.

(** The visited pixels are the pixels of the slices of the stack whose two
    coordinates the loops reach. *)
Lemma visited_In (samplingFactor : Z) (slices : list Slice) (e : Emission) :
  In e (visited samplingFactor slices) <->
  JS.get slices (e_i e) = Some (e_slice e) /\
  In (e_y e) (JS.loop_range (rows (image (e_slice e))) samplingFactor) /\
  In (e_x e) (JS.loop_range (columns (image (e_slice e))) samplingFactor).
Proof.
  unfold visited, visitedSlice. rewrite in_flat_map. split.
  - intros [[i s] [Hp Hin]]. cbn [fst snd] in Hin.
    apply positioned_In in Hp.
    apply in_flat_map in Hin. destruct Hin as [y [Hy Hin]].
    apply in_map_iff in Hin. destruct Hin as [x [<- Hx]].
    cbn [pixelAt e_i e_slice e_y e_x]. repeat split; assumption.
  - intros [Hget [Hy Hx]]. exists (e_i e, e_slice e).
    split; [apply positioned_In; exact Hget|]. cbn [fst snd].
    apply in_flat_map. exists (e_y e). split; [exact Hy|].
    apply in_map_iff. exists (e_x e). split; [|exact Hx].
    destruct e; reflexivity.
Qed.

Lemma range_from_length (step : Z) (Hstep : 0 < step) :
  forall fuel i bound,
    (Z.to_nat (bound - i) <= fuel)%nat ->
    length (JS.range_from fuel i bound step) =
    Z.to_nat ((bound - i + step - 1) / step).
Proof.
  induction fuel as [|fuel IH]; intros i bound Hfuel; cbn [JS.range_from].
  - assert (bound - i <= 0) by lia.
    assert ((bound - i + step - 1) / step <= 0).
    { apply Z.lt_succ_r. apply Z.div_lt_upper_bound; lia. }
    simpl. lia.
  - destruct (Z.ltb_spec i bound) as [Hlt|Hge].
    + cbn [length]. rewrite IH by lia.
      replace (bound - i + step - 1) with ((bound - (i + step) + step - 1) + 1 * step)
        by lia.
      rewrite Z.div_add by lia.
      assert (0 <= (bound - (i + step) + step - 1) / step)
        by (apply Z.div_pos; lia).
      lia.
    + assert ((bound - i + step - 1) / step <= 0).
      { apply Z.lt_succ_r. apply Z.div_lt_upper_bound; lia. }
      simpl. lia.
Qed.

(** The number of values the loop variable takes. *)
Lemma loop_range_length (bound step : Z) :
  0 < step -> length (JS.loop_range bound step) = iterations bound step.
Proof.
  intros Hstep. unfold JS.loop_range, iterations.
  rewrite (range_from_length step Hstep) by lia.
  rewrite Z.sub_0_r. reflexivity.
Qed.

Lemma visitedSlice_length (samplingFactor i : Z) (slice : Slice) :
  0 < samplingFactor ->
  length (visitedSlice samplingFactor i slice) =
  (iterations (rows (image slice)) samplingFactor *
   iterations (columns (image slice)) samplingFactor)%nat.
Proof.
  intros Hs. unfold visitedSlice.
  rewrite <- !(loop_range_length _ _ Hs).
  induction (JS.loop_range (rows (image slice)) samplingFactor) as [|y l IH];
    [reflexivity|].
  cbn [flat_map length]. rewrite length_app, length_map, IH. lia.
Qed.

Lemma visited_length (samplingFactor : Z) (slices : list Slice) :
  0 < samplingFactor ->
  length (visited samplingFactor slices) =
  list_sum (map (fun s => (iterations (rows (image s)) samplingFactor *
                           iterations (columns (image s)) samplingFactor)%nat)
                slices).
Proof.
  intros Hs. unfold visited, positioned.
  generalize 0%nat as start.
  induction slices as [|s slices IH]; intros start; [reflexivity|].
  cbn [length seq map combine flat_map list_sum fst snd].
  rewrite length_app, IH, (visitedSlice_length _ _ _ Hs). reflexivity.
Qed.

Lemma get_outside {A : Type} (arr : list A) (k : Z) :
  Z.of_nat (length arr) <= k -> JS.get arr k = None.
Proof.
  intros Hk. unfold JS.get. destruct (Z.ltb_spec k 0); [reflexivity|].
  apply nth_error_None. lia.
Qed.

Lemma thin_visited (rand : nat -> Q) (l : list Emission) (k : nat)
      (e : Emission) :
  In e (thin rand k l) -> In e l /\ notAir e = true.
Proof.
  intros Hin. destruct (thin_between rand l k) as [_ Hsub].
  apply (subseq_In _ _ _ Hsub) in Hin. apply filter_In in Hin. exact Hin.
Qed.

(** X1: when every draw is at most 0.1 (every sample is kept), the output
    holds exactly the visited pixels whose value is not below -800, in the
    order of the loops: slice by slice, row by row, left to right. *)
Theorem always_keep_emits_every_non_air_pixel :
  forall (rand : nat -> Q) (samplingFactor : Z) (slices : list Slice),
    (forall k, (rand k <= 1 # 10)%Q) ->
    vertices (sampleVolume rand samplingFactor slices) =
      flat3 (map (e_point (Z.of_nat (length slices) * sliceHeight))
                 (filter notAir (visited samplingFactor slices))) /\
    colors (sampleVolume rand samplingFactor slices) =
      flat3 (map e_color (filter notAir (visited samplingFactor slices))).
Proof.
  intros rand s slices Hr.
  destruct (sampleVolume_thin rand s slices) as [Hv [Hc _]].
  rewrite (thin_always rand Hr) in Hv, Hc. split; assumption.
Qed.

Lemma always_keep_emits_every_non_air_pixel_witness :
  vertices (sampleVolume alwaysKeep 4 [softSlice]) =
    flat3 (map (e_point (Z.of_nat (length [softSlice]) * sliceHeight))
               (filter notAir (visited 4 [softSlice]))) /\
  colors (sampleVolume alwaysKeep 4 [softSlice]) =
    flat3 (map e_color (filter notAir (visited 4 [softSlice]))).
Proof.
  apply (always_keep_emits_every_non_air_pixel alwaysKeep 4 [softSlice]).
  intros k. unfold alwaysKeep, Qle. simpl. lia.
Defined.

(** X2: when every draw exceeds 0.3 (no drawn sample is kept), the output
    holds exactly the visited pixels whose value is not below 200, in the
    order of the loops; lung and soft tissue pixels are all dropped. *)
Theorem never_keep_emits_bone_only :
  forall (rand : nat -> Q) (samplingFactor : Z) (slices : list Slice),
    (forall k, (3 # 10 < rand k)%Q) ->
    vertices (sampleVolume rand samplingFactor slices) =
      flat3 (map (e_point (Z.of_nat (length slices) * sliceHeight))
                 (filter boneLike (visited samplingFactor slices))) /\
    colors (sampleVolume rand samplingFactor slices) =
      flat3 (map e_color (filter boneLike (visited samplingFactor slices))).
Proof.
  intros rand s slices Hr.
  destruct (sampleVolume_thin rand s slices) as [Hv [Hc _]].
  rewrite (thin_never rand Hr) in Hv, Hc. split; assumption.
Qed.

Lemma never_keep_emits_bone_only_witness :
  vertices (sampleVolume neverKeep 4 [softSlice; boneSlice]) =
    flat3 (map (e_point (Z.of_nat (length [softSlice; boneSlice])
                         * sliceHeight))
               (filter boneLike (visited 4 [softSlice; boneSlice]))) /\
  colors (sampleVolume neverKeep 4 [softSlice; boneSlice]) =
    flat3 (map e_color (filter boneLike (visited 4 [softSlice; boneSlice]))).
Proof.
  apply (never_keep_emits_bone_only neverKeep 4 [softSlice; boneSlice]).
  intros k. unfold neverKeep, Qlt. simpl. lia.
Defined.

(** X3: whatever the draws, thinning only leaves pixels out: the output
    is a subsequence, in the order of the loops, of the visited pixels that
    are not air, and it contains every visited pixel whose value is not
    below 200 (bone is never thinned). *)
Theorem thinning_keeps_bone_and_scan_order :
  forall (rand : nat -> Q) (samplingFactor : Z) (slices : list Slice),
    exists es,
      vertices (sampleVolume rand samplingFactor slices) =
        flat3 (map (e_point (Z.of_nat (length slices) * sliceHeight)) es) /\
      colors (sampleVolume rand samplingFactor slices) =
        flat3 (map e_color es) /\
      subseq (filter boneLike (visited samplingFactor slices)) es /\
      subseq es (filter notAir (visited samplingFactor slices)).
Proof.
  intros rand s slices.
  destruct (sampleVolume_thin rand s slices) as [Hv [Hc _]].
  exists (thin rand 0 (visited s slices)).
  split; [exact Hv|]. split; [exact Hc|]. apply thin_between.
Qed.

(** X4: for a positive sampling factor the number of points is at most
    the number of visited pixels, which is, summed over the slices, the
    number of visited rows times the number of visited columns (each the
    size divided by the factor, rounded up); both arrays hold three entries
    per point. *)
Theorem point_count_is_bounded :
  forall (rand : nat -> Q) (samplingFactor : Z) (slices : list Slice),
    0 < samplingFactor ->
    exists n,
      length (vertices (sampleVolume rand samplingFactor slices)) =
        (3 * n)%nat /\
      length (colors (sampleVolume rand samplingFactor slices)) =
        (3 * n)%nat /\
      (n <= list_sum
              (map (fun s =>
                      (iterations (rows (image s)) samplingFactor *
                       iterations (columns (image s)) samplingFactor)%nat)
                   slices))%nat.
Proof.
  intros rand s slices Hs.
  destruct (sampleVolume_thin rand s slices) as [Hv [Hc _]].
  exists (length (thin rand 0 (visited s slices))).
  rewrite Hv, Hc, !flat3_length, !length_map.
  split; [reflexivity|]. split; [reflexivity|].
  rewrite <- (visited_length s slices Hs).
  destruct (thin_between rand (visited s slices) 0) as [_ Hsub].
  apply subseq_length in Hsub.
  eapply Nat.le_trans; [exact Hsub | apply filter_length_le].
Qed.

Lemma point_count_is_bounded_witness :
  exists n,
    length (vertices (sampleVolume alwaysKeep 4 airBoneStack)) = (3 * n)%nat /\
    length (colors (sampleVolume alwaysKeep 4 airBoneStack)) = (3 * n)%nat /\
    (n <= list_sum
            (map (fun s => (iterations (rows (image s)) 4 *
                            iterations (columns (image s)) 4)%nat)
                 airBoneStack))%nat.
Proof.
  apply (point_count_is_bounded alwaysKeep 4 airBoneStack). reflexivity.
Defined.

(** X5: the number of calls to [Math.random] does not depend on what the
    calls return: one call is made for each visited pixel whose value is
    at least -800 and below 200, and none for any other pixel. *)
Theorem one_draw_per_thinned_pixel :
  forall (rand rand' : nat -> Q) (samplingFactor : Z) (slices : list Slice),
    draws (sampleVolume rand samplingFactor slices) =
      length (filter drawn (visited samplingFactor slices)) /\
    draws (sampleVolume rand' samplingFactor slices) =
      draws (sampleVolume rand samplingFactor slices) /\
    forall e, drawn e = true <->
              exists v, e_value e = Some v /\ -800 <= v < 200.
Proof.
  intros rand rand' s slices.
  destruct (sampleVolume_thin rand s slices) as [_ [_ Hd]].
  destruct (sampleVolume_thin rand' s slices) as [_ [_ Hd']].
  split; [exact Hd|]. split; [congruence|].
  intros e. unfold drawn, notAir, boneLike.
  destruct (e_value e) as [v|]; simpl.
  - split.
    + intros H. apply andb_prop in H. destruct H as [H1 H2].
      apply negb_true_iff in H1, H2. rewrite negb_false_iff in H2.
      apply Z.ltb_ge in H1. apply Z.ltb_lt in H2. exists v. split; [reflexivity | lia].
    + intros [v' [Hv' Hr]]. injection Hv' as <-.
      apply andb_true_intro. split.
      * apply negb_true_iff, Z.ltb_ge. lia.
      * apply negb_true_iff. rewrite negb_false_iff. apply Z.ltb_lt. lia.
  - split; [discriminate | intros [v [Hv _]]; discriminate].
Qed.

(** X6: a read outside the pixel array is not an error.  When the index
    [y * width + x] of a visited pixel lies beyond the end of the array,
    the value read is [undefined], every comparison fails, and the pixel
    gets a point of the bone colour, whatever the draws. *)
Theorem read_outside_pixel_array_gives_bone_point :
  forall (rand : nat -> Q) (samplingFactor : Z) (slices : list Slice)
         (e : Emission),
    In e (visited samplingFactor slices) ->
    Z.of_nat (length (getPixelData (image (e_slice e)))) <=
      e_y e * columns (image (e_slice e)) + e_x e ->
    e_color e = rgb boneColor /\
    exists es,
      vertices (sampleVolume rand samplingFactor slices) =
        flat3 (map (e_point (Z.of_nat (length slices) * sliceHeight)) es) /\
      colors (sampleVolume rand samplingFactor slices) =
        flat3 (map e_color es) /\
      In e es.
Proof.
  intros rand s slices e Hin Hout.
  assert (Hval : e_value e = None) by (apply get_outside; exact Hout).
  split.
  - unfold e_color, classColor. rewrite Hval. reflexivity.
  - destruct (sampleVolume_thin rand s slices) as [Hv [Hc _]].
    exists (thin rand 0 (visited s slices)).
    split; [exact Hv|]. split; [exact Hc|].
    destruct (thin_between rand (visited s slices) 0) as [Hsub _].
    apply (subseq_In _ _ _ Hsub). apply filter_In. split; [exact Hin|].
    unfold boneLike. rewrite Hval. reflexivity.
Qed.

Lemma truncated_pixel_visited :
  In (pixelAt 0 truncatedSlice 0 0) (visited 4 [truncatedSlice]).
Proof. vm_compute. left. reflexivity. Defined.

Lemma read_outside_pixel_array_gives_bone_point_witness :
  e_color (pixelAt 0 truncatedSlice 0 0) = rgb boneColor /\
  exists es,
    vertices (sampleVolume neverKeep 4 [truncatedSlice]) =
      flat3 (map (e_point (Z.of_nat (length [truncatedSlice]) * sliceHeight))
                 es) /\
    colors (sampleVolume neverKeep 4 [truncatedSlice]) =
      flat3 (map e_color es) /\
    In (pixelAt 0 truncatedSlice 0 0) es.
Proof.
  apply (read_outside_pixel_array_gives_bone_point
           neverKeep 4 [truncatedSlice] (pixelAt 0 truncatedSlice 0 0)).
  - exact truncated_pixel_visited.
  - vm_compute. discriminate.
Defined.


(* ================================================================== *)
(** * The session of DicomViewer1.js *)
(* ================================================================== *)




(* ================================================================== *)
(** * The upload handler *)
(* ================================================================== *)

Lemma sort_length {A : Type} (cmp : A -> A -> JS.Number) (l : list A) :
  length (JS.sort cmp l) = length l.
Proof. apply Permutation_length, sort_perm. Qed.

Lemma map_index_from_length {A B : Type} (f : A -> Z -> B) (l : list A) :
  forall i, length (JS.map_index_from f i l) = length l.
Proof.
  induction l as [|x l IH]; intros i; simpl; [reflexivity | rewrite IH; reflexivity].
Qed.

Lemma load_rejected :
  forall (uploaded : list File) (i : Z),
    (exists f, In f uploaded /\ loadImage f = None) ->
    JS.Promise_all (JS.map_index_from loadSlice i uploaded) = None.
Proof.
  induction uploaded as [|f uploaded IH]; intros i [g [Hin Hg]].
  - contradiction.
  - cbn [JS.map_index_from JS.Promise_all]. unfold loadSlice at 1.
    destruct (loadImage f) eqn:Hf; [|reflexivity].
    destruct Hin as [-> | Hin]; [congruence|].
    rewrite (IH (i + 1)); [reflexivity | exists g; split; assumption].
Qed.

(** X10: when every file of a selection that is not empty is loaded, the
    handler stores one slice per file, whatever the instance numbers are
    (the stored indices are the positions 0 to n-1 rearranged, the stored
    images the loaded images rearranged), clears the loading flag, and sets
    the current slice to the middle position [floor(n / 2)], which is a
    valid index: the slice shown after an upload exists. *)
Theorem upload_selects_an_existing_middle_slice :
  forall (st : State) (uploaded : list File) (images : list Image),
    uploaded <> [] ->
    map loadImage uploaded = map Some images ->
    let st' := handleFileUpload st uploaded in
    files st' = uploaded /\
    loading st' = false /\
    length (slices st') = length uploaded /\
    Permutation (map index (slices st'))
                (map Z.of_nat (seq 0 (length uploaded))) /\
    Permutation (map image (slices st')) images /\
    currentSliceIndex st' = Z.of_nat (length uploaded) / 2 /\
    0 <= currentSliceIndex st' < Z.of_nat (length (slices st')) /\
    exists s, JS.get (slices st') (currentSliceIndex st') = Some s.
Proof.
  intros st uploaded images Hne Hload st'. subst st'.
  assert (Hlen : length images = length uploaded).
  { apply (f_equal (@length _)) in Hload. rewrite !length_map in Hload.
    symmetry. exact Hload. }
  assert (Hpos : 0 < Z.of_nat (length uploaded))
    by (destruct uploaded; [congruence | simpl; lia]).
  unfold handleFileUpload.
  destruct (Z.eqb_spec (Z.of_nat (length uploaded)) 0) as [H0|_]; [lia|].
  unfold JS.map_index. rewrite (loads_arrive uploaded images 0 Hload).
  cbn [files loading slices currentSliceIndex].
  rewrite sort_length, map_index_from_length, Hlen. unfold JS.Math_floor_half.
  assert (Hmid : 0 <= Z.of_nat (length uploaded) / 2 < Z.of_nat (length uploaded)).
  { split; [apply Z.div_pos; lia | apply Z.div_lt_upper_bound; lia]. }
  destruct (arrived_shape images 0) as [Him [Hidx _]].
  split; [reflexivity|]. split; [reflexivity|]. split; [reflexivity|].
  split.
  { rewrite <- Hlen. change (map Z.of_nat (seq 0 (length images)))
      with (map (fun k => 0 + Z.of_nat k) (seq 0 (length images))).
    rewrite <- Hidx. apply Permutation_map, sort_perm. }
  split.
  { rewrite <- Him at 2. apply Permutation_map, sort_perm. }
  split; [reflexivity|]. split; [exact Hmid|].
  apply get_in_bounds.
  rewrite sort_length, map_index_from_length, Hlen. exact Hmid.
Qed.

Lemma upload_selects_an_existing_middle_slice_witness :
  files (handleFileUpload initialState threeFiles) = threeFiles /\
  loading (handleFileUpload initialState threeFiles) = false /\
  length (slices (handleFileUpload initialState threeFiles)) =
    length threeFiles /\
  Permutation (map index (slices (handleFileUpload initialState threeFiles)))
              (map Z.of_nat (seq 0 (length threeFiles))) /\
  Permutation (map image (slices (handleFileUpload initialState threeFiles)))
              [taggedImage 3; uniformImage 4 4 0; taggedImage 1] /\
  currentSliceIndex (handleFileUpload initialState threeFiles) =
    Z.of_nat (length threeFiles) / 2 /\
  0 <= currentSliceIndex (handleFileUpload initialState threeFiles)
    < Z.of_nat (length (slices (handleFileUpload initialState threeFiles))) /\
  exists s, JS.get (slices (handleFileUpload initialState threeFiles))
                   (currentSliceIndex (handleFileUpload initialState threeFiles))
            = Some s.
Proof.
  apply (upload_selects_an_existing_middle_slice initialState threeFiles
           [taggedImage 3; uniformImage 4 4 0; taggedImage 1]).
  - discriminate.
  - reflexivity.
Defined.

(** X11: when the load of any one file is rejected, no slice of the
    selection is stored: the previous stack and the previous current slice
    stay as they were, while the selection is recorded and the loading
    flag is cleared. *)
Theorem rejected_load_keeps_previous_stack :
  forall (st : State) (uploaded : list File),
    (exists f, In f uploaded /\ loadImage f = None) ->
    let st' := handleFileUpload st uploaded in
    slices st' = slices st /\
    currentSliceIndex st' = currentSliceIndex st /\
    files st' = uploaded /\
    loading st' = false.
Proof.
  intros st uploaded Hrej st'. subst st'. unfold handleFileUpload.
  destruct (Z.eqb_spec (Z.of_nat (length uploaded)) 0) as [H0|_].
  - destruct Hrej as [f [Hin _]]. destruct uploaded; [contradiction|].
    simpl in H0. lia.
  - unfold JS.map_index. rewrite (load_rejected uploaded 0 Hrej).
    repeat split; reflexivity.
Qed.

Lemma rejected_load_keeps_previous_stack_witness :
  slices (handleFileUpload (handleFileUpload initialState threeFiles)
                           brokenFiles) =
    slices (handleFileUpload initialState threeFiles) /\
  currentSliceIndex (handleFileUpload (handleFileUpload initialState threeFiles)
                                      brokenFiles) =
    currentSliceIndex (handleFileUpload initialState threeFiles) /\
  files (handleFileUpload (handleFileUpload initialState threeFiles)
                          brokenFiles) = brokenFiles /\
  loading (handleFileUpload (handleFileUpload initialState threeFiles)
                            brokenFiles) = false.
Proof.
  apply (rejected_load_keeps_previous_stack
           (handleFileUpload initialState threeFiles) brokenFiles).
  exists {| loadImage := None |}. split; [right; left; reflexivity | reflexivity].
Defined.

(* ================================================================== *)
(** * ThreeDViewer: showing volume data *)
(* ================================================================== *)

Lemma skipn_nth_error {A : Type} (l : list A) :
  forall k c, nth_error l k = Some c -> skipn k l = c :: skipn (S k) l.
Proof.
  induction l as [|x l IH]; intros k c Hk.
  - destruct k; discriminate.
  - destruct k as [|k]; simpl in *.
    + injection Hk as ->. reflexivity.
    + apply IH. exact Hk.
Qed.

(** With a colour for every point, the two flat arrays are the points and
    the colours of the same positions, three entries each. *)
Lemma flatten_from_exact :
  forall pts cols index vs cs,
    0 <= index ->
    index + Z.of_nat (length pts) <= Z.of_nat (length cols) ->
    ThreeDViewer.flatten_from index pts cols vs cs =
    Some (vs ++ flat3 pts,
          cs ++ flat3 (firstn (length pts) (skipn (Z.to_nat index) cols))).
Proof.
  induction pts as [|[[p0 p1] p2] pts IH]; intros cols index vs cs Hi Hlen.
  - simpl. rewrite !app_nil_r. reflexivity.
  - cbn [ThreeDViewer.flatten_from length] in *.
    destruct (get_in_bounds cols index) as [[[c0 c1] c2] Hget]; [lia|].
    rewrite Hget. rewrite IH by lia.
    unfold JS.get in Hget. destruct (Z.ltb_spec index 0); [lia|].
    rewrite (skipn_nth_error _ _ _ Hget). cbn [firstn].
    replace (Z.to_nat (index + 1)) with (S (Z.to_nat index)) by lia.
    change (flat3 ((p0, p1, p2) :: pts)) with ([p0; p1; p2] ++ flat3 pts).
    change (flat3 ((c0, c1, c2)
                     :: firstn (length pts) (skipn (S (Z.to_nat index)) cols)))
      with ([c0; c1; c2]
              ++ flat3 (firstn (length pts) (skipn (S (Z.to_nat index)) cols))).
    rewrite <- !app_assoc. reflexivity.
Qed.

(** With fewer colours than points, reading the missing colour throws. *)
Lemma flatten_from_missing :
  forall pts cols index vs cs,
    0 <= index <= Z.of_nat (length cols) ->
    Z.of_nat (length cols) < index + Z.of_nat (length pts) ->
    ThreeDViewer.flatten_from index pts cols vs cs = None.
Proof.
  induction pts as [|[[p0 p1] p2] pts IH]; intros cols index vs cs Hi Hlen.
  - simpl in Hlen. lia.
  - cbn [ThreeDViewer.flatten_from length] in *.
    destruct (Z.eq_dec index (Z.of_nat (length cols))) as [Heq|Hne].
    + rewrite get_outside by lia. reflexivity.
    + destruct (get_in_bounds cols index) as [[[c0 c1] c2] Hget]; [lia|].
      rewrite Hget. apply IH; lia.
Qed.

Lemma updateEffect_exact (s : ThreeDViewer.Session) (sc : THREE.Scene)
      (cam : THREE.PerspectiveCamera) (vd : ThreeDViewer.VolumeData)
      (p : Q * Q * Q) (pts : list (Q * Q * Q)) :
  ThreeDViewer.scene s = Some sc ->
  ThreeDViewer.camera s = Some cam ->
  ThreeDViewer.points vd = Some (p :: pts) ->
  (length (p :: pts) <= length (ThreeDViewer.colors vd))%nat ->
  ThreeDViewer.updateEffect s (Some vd) =
  (JS.Normal,
   {| ThreeDViewer.scene :=
        Some {| THREE.children :=
                  filter THREE.is_light (THREE.children sc) ++
                  [THREE.Points
                     {| THREE.position := flat3 (p :: pts);
                        THREE.color :=
                          flat3 (firstn (length (p :: pts))
                                        (ThreeDViewer.colors vd)) |}
                     ThreeDViewer.pointsMaterial] |};
      ThreeDViewer.camera :=
        Some {| THREE.position_z :=
                  (ThreeDViewer.maxDimension (ThreeDViewer.dimensions vd)
                   * (3 # 2))%Q |};
      ThreeDViewer.controls := ThreeDViewer.controls s |}).
Proof.
  intros Hsc Hcam Hpts Hlen. unfold ThreeDViewer.updateEffect.
  rewrite Hsc, Hpts, Hcam.
  destruct (Z.eqb_spec (Z.of_nat (length (p :: pts))) 0) as [H0|_];
    [simpl in H0; lia|].
  rewrite (flatten_from_exact (p :: pts) (ThreeDViewer.colors vd) 0 [] [])
    by lia.
  reflexivity.
Qed.

(** X12: showing volume data that has points, and a colour for each, a
    second time changes nothing: the second update completes normally and
    leaves the session exactly as the first one left it (the lights, one
    point cloud, the same camera distance). *)
Theorem showing_the_same_volume_twice_changes_nothing :
  forall (s : ThreeDViewer.Session) (sc : THREE.Scene)
         (cam : THREE.PerspectiveCamera) (vd : ThreeDViewer.VolumeData)
         (p : Q * Q * Q) (pts : list (Q * Q * Q)),
    ThreeDViewer.scene s = Some sc ->
    ThreeDViewer.camera s = Some cam ->
    ThreeDViewer.points vd = Some (p :: pts) ->
    (length (p :: pts) <= length (ThreeDViewer.colors vd))%nat ->
    ThreeDViewer.updateEffect
      (snd (ThreeDViewer.updateEffect s (Some vd))) (Some vd) =
    (JS.Normal, snd (ThreeDViewer.updateEffect s (Some vd))).
Proof.
  intros s sc cam vd p pts Hsc Hcam Hpts Hlen.
  rewrite (updateEffect_exact s sc cam vd p pts Hsc Hcam Hpts Hlen).
  cbn [snd].
  erewrite updateEffect_exact; [| reflexivity | reflexivity | exact Hpts | exact Hlen].
  cbn [THREE.children].
  rewrite filter_light_idem by reflexivity.
  reflexivity.
Qed.

Lemma showing_the_same_volume_twice_changes_nothing_witness :
  ThreeDViewer.updateEffect
    (snd (ThreeDViewer.updateEffect
            (ThreeDViewer.initEffect true (Some onePointVolume) unmounted)
            (Some onePointVolume)))
    (Some onePointVolume) =
  (JS.Normal,
   snd (ThreeDViewer.updateEffect
          (ThreeDViewer.initEffect true (Some onePointVolume) unmounted)
          (Some onePointVolume))).
Proof.
  exact (showing_the_same_volume_twice_changes_nothing
           (ThreeDViewer.initEffect true (Some onePointVolume) unmounted)
           _ _ onePointVolume (1, 2, 3)%Q [] eq_refl eq_refl eq_refl (le_n 1)).
Defined.


(** X14: volume data with fewer colours than points makes the update
    throw a [TypeError], and it does so after the scene has been cleared:
    the scene is left with its lights only (the cloud shown before is gone
    and the new one is not added), the camera and the controller are left
    as they were. *)
Theorem missing_colour_throws_after_clearing :
  forall (s : ThreeDViewer.Session) (sc : THREE.Scene)
         (vd : ThreeDViewer.VolumeData)
         (p : Q * Q * Q) (pts : list (Q * Q * Q)),
    ThreeDViewer.scene s = Some sc ->
    ThreeDViewer.points vd = Some (p :: pts) ->
    (length (ThreeDViewer.colors vd) < length (p :: pts))%nat ->
    ThreeDViewer.updateEffect s (Some vd) =
    (JS.Throw JS.TypeError,
     {| ThreeDViewer.scene :=
          Some {| THREE.children :=
                    filter THREE.is_light (THREE.children sc) |};
        ThreeDViewer.camera := ThreeDViewer.camera s;
        ThreeDViewer.controls := ThreeDViewer.controls s |}).
Proof.
  intros s sc vd p pts Hsc Hpts Hlen. unfold ThreeDViewer.updateEffect.
  rewrite Hsc, Hpts.
  destruct (Z.eqb_spec (Z.of_nat (length (p :: pts))) 0) as [H0|_];
    [simpl in H0; lia|].
  rewrite (flatten_from_missing (p :: pts) (ThreeDViewer.colors vd) 0 [] [])
    by lia.
  reflexivity.
Qed.

Lemma missing_colour_throws_after_clearing_witness :
  ThreeDViewer.updateEffect showingOnePoint (Some uncolouredVolume) =
  (JS.Throw JS.TypeError,
   {| ThreeDViewer.scene :=
        Some {| THREE.children :=
                  filter THREE.is_light
                    [ThreeDViewer.ambientLight; ThreeDViewer.directionalLight;
                     THREE.Points
                       {| THREE.position := flat3 [(1, 2, 3)%Q];
                          THREE.color := flat3 [(1, 1, 0)%Q] |}
                       ThreeDViewer.pointsMaterial] |};
      ThreeDViewer.camera := ThreeDViewer.camera showingOnePoint;
      ThreeDViewer.controls := ThreeDViewer.controls showingOnePoint |}).
Proof.
  exact (missing_colour_throws_after_clearing showingOnePoint _
           uncolouredVolume (1, 2, 3)%Q [(4, 5, 6)%Q]
           eq_refl eq_refl (le_n 2)).
Defined.

(* ================================================================== *)
(** * The hosting component: uploads and processing *)
(* ================================================================== *)

Section AppProperties.

Import String.
Local Open Scope string_scope.

(** What every reachable state of the component satisfies. *)
Lemma step_consistent (m : App.Machine) (e : App.Event) :
  ((App.processing (App.app m) = true <-> App.processInFlight m <> None) /\
   (App.loading (App.app m) = true <-> App.uploadInFlight m = true) /\
   (App.processing (App.app m) = true ->
    App.resultImage (App.app m) = None /\ App.volumeData (App.app m) = None) /\
   (App.resultImage (App.app m) = None \/ App.volumeData (App.app m) = None)) ->
  ((App.processing (App.app (App.step m e)) = true <->
    App.processInFlight (App.step m e) <> None) /\
   (App.loading (App.app (App.step m e)) = true <->
    App.uploadInFlight (App.step m e) = true) /\
   (App.processing (App.app (App.step m e)) = true ->
    App.resultImage (App.app (App.step m e)) = None /\
    App.volumeData (App.app (App.step m e)) = None) /\
   (App.resultImage (App.app (App.step m e)) = None \/
    App.volumeData (App.app (App.step m e)) = None)).
Proof.
  destruct m as [st up pr]. cbn [App.app App.uploadInFlight App.processInFlight].
  intros [P1 [P2 [P3 P4]]].
  destruct e; cbn [App.step App.app App.uploadInFlight App.processInFlight].
  - unfold App.handleFileChange.
    destruct targetFiles as [fs|]; [|tauto].
    destruct (0 <? Z.of_nat (List.length fs))%Z; [|tauto].
    cbn. tauto.
  - destruct (App.loading st) eqn:Hl; cbn [orb];
      [cbn; rewrite Hl; tauto|].
    destruct (Z.of_nat (List.length (App.files st)) =? 0)%Z eqn:Hf;
      [cbn; rewrite Hl; tauto|].
    unfold App.uploadFiles_start. rewrite Hf. cbn. tauto.
  - destruct up; [|cbn; tauto].
    unfold App.uploadFiles_settle.
    destruct f as [[|] data | message]; cbn; intuition congruence.
  - destruct (App.truthy (App.uploadId st)) eqn:Ht; cbn [andb];
      [|cbn; tauto].
    destruct (App.processing st) eqn:Hp; cbn [negb];
      [cbn; rewrite Hp; tauto|].
    unfold App.processFiles_start. rewrite Ht. cbn.
    repeat split; try tauto; try congruence; intros; discriminate.
  - destruct pr as [mode|]; [|cbn; tauto].
    assert (Hp : App.processing st = true) by (apply P1; discriminate).
    destruct (P3 Hp) as [Hri Hvd].
    unfold App.processFiles_settle.
    destruct f as [[|] data | message]; cbn;
      [destruct mode; cbn;
       [destruct (App.data_success data), (App.data_images data) as [[|img imgs]|]
       |destruct (App.data_success data), (App.data_volume_data data)]
      | | ];
      cbn; rewrite ?Hri, ?Hvd; intuition congruence.
  - destruct (App.truthy (App.uploadId st)); cbn; tauto.
Qed.

(** X15: whatever the user does and however the service answers, after
    any sequence of events a result image and volume data are never both
    set; the processing flag is up exactly while a processing request is
    under way, and as long as it is up neither result is set; the loading
    flag is up exactly while an upload is under way. *)
Theorem results_are_never_shown_together :
  forall events : list App.Event,
    (App.processing (App.app (App.run events)) = true <->
     App.processInFlight (App.run events) <> None) /\
    (App.loading (App.app (App.run events)) = true <->
     App.uploadInFlight (App.run events) = true) /\
    (App.processing (App.app (App.run events)) = true ->
     App.resultImage (App.app (App.run events)) = None /\
     App.volumeData (App.app (App.run events)) = None) /\
    (App.resultImage (App.app (App.run events)) = None \/
     App.volumeData (App.app (App.run events)) = None).
Proof.
  intros events. unfold App.run.
  assert (Hinit :
    (App.processing (App.app App.initialMachine) = true <->
     App.processInFlight App.initialMachine <> None) /\
    (App.loading (App.app App.initialMachine) = true <->
     App.uploadInFlight App.initialMachine = true) /\
    (App.processing (App.app App.initialMachine) = true ->
     App.resultImage (App.app App.initialMachine) = None /\
     App.volumeData (App.app App.initialMachine) = None) /\
    (App.resultImage (App.app App.initialMachine) = None \/
     App.volumeData (App.app App.initialMachine) = None)).
  { cbn. intuition congruence. }
  revert Hinit. generalize App.initialMachine as m.
  induction events as [|e events IH]; intros m Hm; cbn [fold_left].
  - exact Hm.
  - apply IH, step_consistent, Hm.
Qed.

End AppProperties.

Section AppHandlers.

Import String.
Local Open Scope string_scope.



(** X17: with files selected, [uploadFiles] sends the request, and, when
    it is followed through, it ends with the loading flag down and either
    the upload id and file count of an accepted answer and no error, or an
    error message that starts with ["Error uploading files: "] while the
    upload id and the file count stay as they were.  The results on show
    are not touched either way. *)
Theorem upload_ends_in_an_id_or_an_error :
  forall (st : App.State) (f : App.Fetched),
    App.files st <> [] ->
    let started := App.uploadFiles_start st in
    let st' := App.uploadFiles_settle f (snd started) in
    fst started = true /\
    App.loading st' = false /\
    App.resultImage st' = App.resultImage st /\
    App.volumeData st' = App.volumeData st /\
    ((exists data,
         f = App.Answered true data /\
         App.uploadId st' = App.data_upload_id data /\
         App.fileCount st' = App.data_file_count data /\
         App.error st' = None)
     \/
     (exists message,
         App.error st' = Some ("Error uploading files: " ++ message) /\
         App.uploadId st' = App.uploadId st /\
         App.fileCount st' = App.fileCount st)).
Proof.
  intros st f Hfiles started st'. subst st' started.
  unfold App.uploadFiles_start.
  destruct (Z.eqb_spec (Z.of_nat (List.length (App.files st))) 0) as [H0|_].
  - destruct (App.files st); [congruence | simpl in H0; lia].
  - cbn [fst snd]. split; [reflexivity|].
    unfold App.uploadFiles_settle.
    destruct f as [[|] data | message]; cbn; repeat split;
      solve [ left; exists data; repeat split; reflexivity
            | right; eexists; repeat split; reflexivity ].
Qed.

Lemma upload_ends_in_an_id_or_an_error_witness :
  App.loading
    (App.uploadFiles_settle (App.Failed "Failed to fetch")
       (snd (App.uploadFiles_start AppExamples.selected))) = false.
Proof.
  exact (proj1 (proj2 (upload_ends_in_an_id_or_an_error
                         AppExamples.selected (App.Failed "Failed to fetch")
                         ltac:(discriminate)))).
Defined.

(** X18: selecting new files invalidates what was there: the upload id,
    the result image, the volume data and the error are cleared and the
    file count is the number of selected files; [processFiles] called in
    that state sends no request and only reports
    ["Please upload files first"].  An empty selection changes nothing. *)
Theorem new_selection_requires_a_new_upload :
  forall (st : App.State) (file : App.File) (others : list App.File),
    let st' := App.handleFileChange (Some (file :: others)) st in
    App.files st' = file :: others /\
    App.fileCount st' = Some (Z.of_nat (List.length (file :: others))) /\
    App.uploadId st' = None /\
    App.resultImage st' = None /\
    App.volumeData st' = None /\
    App.error st' = None /\
    App.processFiles_start st' =
      (None, App.setError (Some "Please upload files first") st') /\
    App.handleFileChange (Some []) st = st /\
    App.handleFileChange None st = st.
Proof.
  intros st file others st'. subst st'. unfold App.handleFileChange.
  destruct (Z.ltb_spec 0 (Z.of_nat (List.length (file :: others)))) as [_|H0];
    [|simpl in H0; lia].
  cbn. repeat split; reflexivity.
Qed.

End AppHandlers.

(* ================================================================== *)
(** * The points of each slice *)
(* ================================================================== *)

Lemma fold_left_ext_In {A B : Type} (f g : A -> B -> A) (l : list B) :
  (forall a x, In x l -> f a x = g a x) ->
  forall a, fold_left f l a = fold_left g l a.
Proof.
  induction l as [|x l IH]; intros Hfg a; simpl.
  - reflexivity.
  - rewrite (Hfg a x (or_introl eq_refl)).
    apply IH. intros a' x' Hin. apply Hfg. right. exact Hin.
Qed.

(** The pixels visited in a slice carry the position and the slice, and
    their coordinates are values of the two loop variables. *)
Lemma visitedSlice_In (samplingFactor i : Z) (slice : Slice) (e : Emission) :
  In e (visitedSlice samplingFactor i slice) <->
  e_i e = i /\ e_slice e = slice /\
  In (e_y e) (JS.loop_range (rows (image slice)) samplingFactor) /\
  In (e_x e) (JS.loop_range (columns (image slice)) samplingFactor).
Proof.
  unfold visitedSlice. rewrite in_flat_map. split.
  - intros [y [Hy Hin]]. apply in_map_iff in Hin.
    destruct Hin as [x [<- Hx]]. cbn. repeat split; assumption.
  - intros [Hi [Hs [Hy Hx]]]. exists (e_y e). split; [exact Hy|].
    apply in_map_iff. exists (e_x e). split; [|exact Hx].
    destruct e; cbn in *; subst; reflexivity.
Qed.

Lemma centred_z (totalN i : Z) (e : Emission) :
  e_i e = i ->
  (zOf (e_point (totalN * sliceHeight) e) ==
   inject_Z i * 1 - (inject_Z totalN * 1) / 2)%Q.
Proof.
  intros <-. unfold zOf, e_point, sliceHeight. cbn [snd].
  rewrite !Z.mul_1_r. field.
Qed.

Lemma centred_z_range (totalN : Z) (e : Emission) :
  0 <= e_i e < totalN ->
  (- (inject_Z totalN / 2) <= zOf (e_point (totalN * sliceHeight) e))%Q /\
  (zOf (e_point (totalN * sliceHeight) e) <= inject_Z totalN / 2)%Q.
Proof.
  intros [H0 H1]. unfold zOf, e_point, sliceHeight. cbn [snd].
  rewrite !Z.mul_1_r.
  assert (Hlo : (inject_Z 0 <= inject_Z (e_i e))%Q)
    by (rewrite <- Zle_Qle; lia).
  assert (Hhi : (inject_Z (e_i e) <= inject_Z totalN)%Q)
    by (rewrite <- Zle_Qle; lia).
  change (inject_Z 0) with 0%Q in Hlo.
  generalize dependent (inject_Z (e_i e)). generalize (inject_Z totalN).
  intros qn qi Hlo Hhi. unfold Qdiv. change (/ 2)%Q with (1 # 2)%Q.
  split; lra.
Qed.

(** The pixels kept in a stack belong to the slices of the stack. *)
Lemma thin_of_stack (rand : nat -> Q) (samplingFactor : Z)
      (slices : list Slice) (k : nat) (e : Emission) :
  In e (thin rand k (visited samplingFactor slices)) ->
  JS.get slices (e_i e) = Some (e_slice e) /\
  In (e_y e) (JS.loop_range (rows (image (e_slice e))) samplingFactor) /\
  In (e_x e) (JS.loop_range (columns (image (e_slice e))) samplingFactor).
Proof.
  intros Hin. apply thin_visited in Hin. destruct Hin as [Hin _].
  apply visited_In. exact Hin.
Qed.

(** C6: with the slice spacing fixed at 1 and a stack of [N] slices, the
    points that the loops append while they process the slice at position
    [i] are the kept pixels of that slice, and each of them has the z
    coordinate [i * 1 - (N * 1) / 2]; the output as a whole is the kept
    pixels of the stack in the order of the loops, each from the slice at
    its position, and every z coordinate lies between [-N/2] and [N/2]. *)
Theorem z_coordinates_are_centred :
  forall (rand : nat -> Q) (samplingFactor : Z) (slices : list Slice),
    sliceHeight = 1 /\
    (forall (i : Z) (slice : Slice) (a : Buffers),
        vertices (sampleSlice rand samplingFactor
                    (Z.of_nat (length slices) * sliceHeight) i slice a) =
          vertices a ++
          flat3 (map (e_point (Z.of_nat (length slices) * sliceHeight))
                     (thin rand (draws a)
                           (visitedSlice samplingFactor i slice))) /\
        Forall (fun e =>
                  e_i e = i /\ e_slice e = slice /\
                  (zOf (e_point (Z.of_nat (length slices) * sliceHeight) e) ==
                   inject_Z i * 1
                   - (inject_Z (Z.of_nat (length slices)) * 1) / 2)%Q)
               (thin rand (draws a) (visitedSlice samplingFactor i slice))) /\
    vertices (sampleVolume rand samplingFactor slices) =
      flat3 (map (e_point (Z.of_nat (length slices) * sliceHeight))
                 (thin rand 0 (visited samplingFactor slices))) /\
    Forall (fun e =>
              JS.get slices (e_i e) = Some (e_slice e) /\
              (zOf (e_point (Z.of_nat (length slices) * sliceHeight) e) ==
               inject_Z (e_i e) * 1
               - (inject_Z (Z.of_nat (length slices)) * 1) / 2)%Q /\
              (- (inject_Z (Z.of_nat (length slices)) / 2) <=
               zOf (e_point (Z.of_nat (length slices) * sliceHeight) e))%Q /\
              (zOf (e_point (Z.of_nat (length slices) * sliceHeight) e) <=
               inject_Z (Z.of_nat (length slices)) / 2)%Q)
           (thin rand 0 (visited samplingFactor slices)).
Proof.
  intros rand s slices. split; [reflexivity|]. split; [|split].
  - intros i slice a.
    destruct (sampleSlice_thin rand s (Z.of_nat (length slices) * sliceHeight)
                i slice a) as [[Hv _] _].
    split; [exact Hv|].
    apply Forall_forall. intros e Hin.
    apply thin_visited in Hin. destruct Hin as [Hin _].
    apply visitedSlice_In in Hin. destruct Hin as [Hi [Hs _]].
    split; [exact Hi|]. split; [exact Hs|]. apply centred_z. exact Hi.
  - apply (sampleVolume_thin rand s slices).
  - apply Forall_forall. intros e Hin.
    apply thin_of_stack in Hin. destruct Hin as [Hget _].
    split; [exact Hget|]. split; [apply centred_z; reflexivity|].
    apply centred_z_range. apply get_In in Hget. tauto.
Qed.

(** In a well-formed slice the visited pixels all have a value. *)
Lemma visited_values (samplingFactor i : Z) (slice : Slice) (e : Emission) :
  0 < samplingFactor -> wellFormed slice ->
  In e (visitedSlice samplingFactor i slice) ->
  0 <= e_y e * columns (image slice) + e_x e
    < Z.of_nat (length (getPixelData (image slice))) /\
  exists v, e_value e = Some v.
Proof.
  intros Hs Hwf Hin. apply visitedSlice_In in Hin.
  destruct Hin as [_ [Hsl [Hy Hx]]].
  pose proof (pixelIndex_in_bounds samplingFactor slice _ _ Hs Hwf Hy Hx) as Hb.
  split; [exact Hb|]. unfold e_value. rewrite Hsl.
  apply get_in_bounds. exact Hb.
Qed.

(** Two slices of the same size whose pixel arrays agree inside the
    bounds of the first, which is well formed, are sampled alike. *)
Lemma sampleSlice_same_reads (rand : nat -> Q)
      (samplingFactor totalHeight i : Z) (slice slice' : Slice) (a : Buffers) :
  0 < samplingFactor -> wellFormed slice ->
  columns (image slice') = columns (image slice) ->
  rows (image slice') = rows (image slice) ->
  (forall k, 0 <= k < Z.of_nat (length (getPixelData (image slice))) ->
             JS.get (getPixelData (image slice')) k =
             JS.get (getPixelData (image slice)) k) ->
  sampleSlice rand samplingFactor totalHeight i slice' a =
  sampleSlice rand samplingFactor totalHeight i slice a.
Proof.
  intros Hs Hwf Hc Hr Hsame. unfold sampleSlice. cbv zeta.
  rewrite Hc, Hr, !for_loop_fold.
  apply fold_left_ext_In. intros a1 y Hy.
  rewrite !for_loop_fold.
  apply fold_left_ext_In. intros a2 x Hx.
  unfold samplePixel. cbv zeta.
  rewrite (Hsame _ (pixelIndex_in_bounds samplingFactor slice y x Hs Hwf Hy Hx)).
  reflexivity.
Qed.

(** C10: in a slice whose pixel array has exactly [width * height]
    entries, and for a positive sampling stride, the loops run [y] and then
    [x] through the multiples of the stride below the height and the width;
    what they append is decided by the values at the indices
    [y * width + x] of these pixels alone, every such index lies inside the
    pixel array and every such read finds an entry; and nothing outside the
    array is read: a slice of the same size whose array agrees with this
    one inside its bounds, whatever it holds beyond them, gives the same
    result. *)
Theorem sampler_reads_in_bounds :
  forall (rand : nat -> Q) (samplingStride totalHeight i : Z) (slice : Slice)
         (a : Buffers),
    0 < samplingStride ->
    wellFormed slice ->
    let width := columns (image slice) in
    let height := rows (image slice) in
    let pixelData := getPixelData (image slice) in
    sampleSlice rand samplingStride totalHeight i slice a =
      fold_left
        (fun a y =>
           fold_left
             (fun a x =>
                samplePixel rand pixelData width
                  (inject_Z width / 2)%Q (inject_Z height / 2)%Q
                  (inject_Z (i * sliceHeight) - inject_Z totalHeight / 2)%Q
                  y x a)
             (JS.loop_range width samplingStride) a)
        (JS.loop_range height samplingStride) a /\
    (forall y, In y (JS.loop_range height samplingStride) <->
               0 <= y < height /\ y mod samplingStride = 0) /\
    (forall x, In x (JS.loop_range width samplingStride) <->
               0 <= x < width /\ x mod samplingStride = 0) /\
    (vertices (sampleSlice rand samplingStride totalHeight i slice a) =
       vertices a ++
       flat3 (map (e_point totalHeight)
                  (thin rand (draws a) (visitedSlice samplingStride i slice))) /\
     colors (sampleSlice rand samplingStride totalHeight i slice a) =
       colors a ++
       flat3 (map e_color
                  (thin rand (draws a) (visitedSlice samplingStride i slice)))) /\
    (forall y x,
        In y (JS.loop_range height samplingStride) ->
        In x (JS.loop_range width samplingStride) ->
        In (pixelAt i slice y x) (visitedSlice samplingStride i slice) /\
        e_value (pixelAt i slice y x) = JS.get pixelData (y * width + x) /\
        0 <= y * width + x < Z.of_nat (length pixelData) /\
        exists v, JS.get pixelData (y * width + x) = Some v) /\
    (forall slice' : Slice,
        columns (image slice') = width ->
        rows (image slice') = height ->
        (forall k, 0 <= k < Z.of_nat (length pixelData) ->
                   JS.get (getPixelData (image slice')) k = JS.get pixelData k) ->
        sampleSlice rand samplingStride totalHeight i slice' a =
        sampleSlice rand samplingStride totalHeight i slice a).
Proof.
  intros rand s totalHeight i slice a Hs Hwf width height pixelData.
  split; [|split; [|split; [|split; [|split]]]].
  - unfold sampleSlice. cbv zeta. rewrite for_loop_fold.
    apply fold_left_ext. intros a' y. apply for_loop_fold.
  - intros y. apply loop_range_spec. exact Hs.
  - intros x. apply loop_range_spec. exact Hs.
  - destruct (sampleSlice_thin rand s totalHeight i slice a) as [[Hv Hc] _].
    split; assumption.
  - intros y x Hy Hx.
    pose proof (pixelIndex_in_bounds s slice y x Hs Hwf Hy Hx) as Hb.
    split.
    { apply visitedSlice_In. cbn. repeat split; assumption. }
    split; [reflexivity|].
    split; [exact Hb | apply get_in_bounds; exact Hb].
  - intros slice' Hc Hr Hsame.
    apply sampleSlice_same_reads; assumption.
Qed.

(** The slice of bone with a pixel array that runs on beyond its 16
    pixels. *)
Lemma sampler_reads_in_bounds_witness :
  sampleSlice alwaysKeep 4 2 1
    (sliceAt 1 {| columns := 4; rows := 4;
                  getPixelData := repeat 500 16 ++ [-1000; 0; 7];
                  x00200013 := None |})
    emptyBuffers =
  sampleSlice alwaysKeep 4 2 1 boneSlice emptyBuffers.
Proof.
  apply (proj2 (proj2 (proj2 (proj2 (proj2
    (sampler_reads_in_bounds alwaysKeep 4 2 1 boneSlice emptyBuffers
       eq_refl boneSlice_wellFormed)))))).
  - reflexivity.
  - reflexivity.
  - intros k Hk. change (Z.of_nat (length (getPixelData (image boneSlice))))
      with 16 in Hk.
    assert (Hcases : k = 0 \/ k = 1 \/ k = 2 \/ k = 3 \/ k = 4 \/ k = 5 \/
                     k = 6 \/ k = 7 \/ k = 8 \/ k = 9 \/ k = 10 \/ k = 11 \/
                     k = 12 \/ k = 13 \/ k = 14 \/ k = 15) by lia.
    repeat (destruct Hcases as [-> | Hcases]; [reflexivity|]).
    subst k. reflexivity.
Defined.

(** X7: for a positive sampling factor the output is the kept pixels of
    the stack, and the point of each lies in the box of the slice the pixel
    belongs to, the slice at its position of the stack: its x coordinate
    is at least [-width/2] and below [width/2], its y coordinate above
    [-height/2] and at most [height/2], for the width and height of that
    slice. *)
Theorem points_lie_in_slice_box :
  forall (rand : nat -> Q) (samplingFactor : Z) (slices : list Slice),
    0 < samplingFactor ->
    vertices (sampleVolume rand samplingFactor slices) =
      flat3 (map (e_point (Z.of_nat (length slices) * sliceHeight))
                 (thin rand 0 (visited samplingFactor slices))) /\
    Forall (fun e =>
              JS.get slices (e_i e) = Some (e_slice e) /\
              (0 <= e_x e < columns (image (e_slice e)) /\
               0 <= e_y e < rows (image (e_slice e))) /\
              let p := e_point (Z.of_nat (length slices) * sliceHeight) e in
              let w := inject_Z (columns (image (e_slice e))) in
              let h := inject_Z (rows (image (e_slice e))) in
              (fst (fst p) == inject_Z (e_x e) - w / 2)%Q /\
              (snd (fst p) == - (inject_Z (e_y e) - h / 2))%Q /\
              (- (w / 2) <= fst (fst p))%Q /\ (fst (fst p) < w / 2)%Q /\
              (- (h / 2) < snd (fst p))%Q /\ (snd (fst p) <= h / 2)%Q)
           (thin rand 0 (visited samplingFactor slices)).
Proof.
  intros rand s slices Hs.
  split; [apply (sampleVolume_thin rand s slices)|].
  apply Forall_forall. intros e Hin.
  apply thin_of_stack in Hin. destruct Hin as [Hget [Hy Hx]].
  apply loop_range_spec in Hy; [|exact Hs].
  apply loop_range_spec in Hx; [|exact Hs].
  destruct Hy as [[Hy0 Hy1] _], Hx as [[Hx0 Hx1] _].
  split; [exact Hget|]. split; [lia|].
  cbv zeta. unfold e_point. cbn [fst snd].
  rewrite Zle_Qle in Hy0, Hx0. rewrite Zlt_Qlt in Hy1, Hx1.
  change (inject_Z 0) with 0%Q in Hy0, Hx0.
  generalize dependent (inject_Z (e_x e)).
  generalize dependent (inject_Z (e_y e)).
  generalize (inject_Z (columns (image (e_slice e)))).
  generalize (inject_Z (rows (image (e_slice e)))).
  intros h w qy Hqy0 Hqy1 qx Hqx0 Hqx1.
  split; [reflexivity|]. split; [reflexivity|].
  unfold Qdiv. change (/ 2)%Q with (1 # 2)%Q.
  repeat split; lra.
Qed.

Lemma points_lie_in_slice_box_witness :
  vertices (sampleVolume alwaysKeep 4 mismatchedStack) =
    flat3 (map (e_point (Z.of_nat (length mismatchedStack) * sliceHeight))
               (thin alwaysKeep 0 (visited 4 mismatchedStack))).
Proof.
  exact (proj1 (points_lie_in_slice_box alwaysKeep 4 mismatchedStack eq_refl)).
Defined.

(* ================================================================== *)
(** * The camera *)
(* ================================================================== *)

Lemma Math_max3_spec (a b c : Z) :
  a <= JS.Math_max3 a b c /\ b <= JS.Math_max3 a b c /\
  c <= JS.Math_max3 a b c /\
  (JS.Math_max3 a b c = a \/ JS.Math_max3 a b c = b \/ JS.Math_max3 a b c = c).
Proof. unfold JS.Math_max3. lia. Qed.

Lemma maxDimension_spec (d0 d1 d2 : Q) :
  (d0 <= ThreeDViewer.maxDimension (d0, d1, d2))%Q /\
  (d1 <= ThreeDViewer.maxDimension (d0, d1, d2))%Q /\
  (d2 <= ThreeDViewer.maxDimension (d0, d1, d2))%Q /\
  (ThreeDViewer.maxDimension (d0, d1, d2) == d0 \/
   ThreeDViewer.maxDimension (d0, d1, d2) == d1 \/
   ThreeDViewer.maxDimension (d0, d1, d2) == d2)%Q.
Proof.
  cbn [ThreeDViewer.maxDimension]. repeat split.
  - eapply Qle_trans; [apply Q.le_max_l | apply Q.le_max_l].
  - eapply Qle_trans; [apply Q.le_max_r | apply Q.le_max_l].
  - apply Q.le_max_r.
  - destruct (Q.max_spec (Qmax d0 d1) d2) as [[_ H2] | [_ H2]].
    + right. right. exact H2.
    + destruct (Q.max_spec d0 d1) as [[_ H1] | [_ H1]].
      * right. left. rewrite H2. exact H1.
      * left. rewrite H2. exact H1.
Qed.

(** X8: on a ready session and a stack that is not empty the camera is
    moved to z = 1.5 * max(columns of the first slice, rows of the first
    slice, number of slices); that maximum is one of the three and at
    least each of them; the new cloud holds the kept pixels of the stack,
    and every one of its points has a z coordinate strictly below the
    camera's. *)
Theorem camera_is_placed_beyond_the_stack :
  forall (rand : nat -> Q) (refs : Refs) (sc : THREE.Scene)
         (cam : THREE.PerspectiveCamera) (ctl : THREE.OrbitControls)
         (first : Slice) (rest : list Slice),
    threeScene refs = Some sc ->
    threeCamera refs = Some cam ->
    threeControls refs = Some ctl ->
    let N := Z.of_nat (length (first :: rest)) in
    let m := JS.Math_max3 (columns (image first)) (rows (image first)) N in
    threeCamera (snd (createVolumeFromSlices rand refs (first :: rest))) =
      Some {| THREE.position_z := (inject_Z m * (3 # 2))%Q |} /\
    (columns (image first) <= m /\ rows (image first) <= m /\ N <= m /\
     (m = columns (image first) \/ m = rows (image first) \/ m = N)) /\
    option_map THREE.children
      (threeScene (snd (createVolumeFromSlices rand refs (first :: rest)))) =
      Some (firstn 2 (THREE.children sc) ++
            [THREE.Points
               {| THREE.position :=
                    flat3 (map (e_point (N * sliceHeight))
                               (thin rand 0 (visited 4 (first :: rest))));
                  THREE.color :=
                    flat3 (map e_color
                               (thin rand 0 (visited 4 (first :: rest)))) |}
               pointsMaterial]) /\
    Forall (fun e =>
              (zOf (e_point (N * sliceHeight) e) < inject_Z m * (3 # 2))%Q)
           (thin rand 0 (visited 4 (first :: rest))).
Proof.
  intros rand refs sc cam ctl first rest Hsc Hcam Hctl N m.
  rewrite (createVolume_ready rand refs sc cam ctl first rest Hsc Hcam Hctl).
  cbn [snd threeCamera threeScene option_map THREE.children].
  assert (Hs1 : N * sliceHeight = N) by (unfold sliceHeight; lia).
  split.
  { subst m N. unfold sliceHeight. rewrite Z.mul_1_r. reflexivity. }
  pose proof (Math_max3_spec (columns (image first)) (rows (image first)) N)
    as Hmax. fold m in Hmax.
  split; [exact Hmax|].
  destruct (sampleVolume_thin rand 4 (first :: rest)) as [Hv [Hc _]].
  split.
  { unfold pointCloudOf. rewrite Hv, Hc. reflexivity. }
  apply Forall_forall. intros e Hin.
  apply thin_of_stack in Hin. destruct Hin as [Hget _].
  apply get_In in Hget. destruct Hget as [_ [_ Hlt]]. fold N in Hlt.
  assert (HN : 1 <= N) by (subst N; simpl; lia).
  destruct Hmax as [_ [_ [Hn _]]].
  rewrite Hs1. unfold zOf, e_point, sliceHeight. cbn [snd].
  rewrite Z.mul_1_r.
  rewrite Zlt_Qlt in Hlt. rewrite Zle_Qle in Hn, HN.
  change (inject_Z 1) with 1%Q in HN.
  generalize dependent (inject_Z (e_i e)).
  generalize dependent (inject_Z m).
  generalize dependent (inject_Z N).
  intros qn Hqn qm Hnm qi Hqi.
  unfold Qdiv. change (/ 2)%Q with (1 # 2)%Q. lra.
Qed.

Lemma camera_is_placed_beyond_the_stack_witness :
  threeCamera (snd (createVolumeFromSlices alwaysKeep freshRefs
                                           mismatchedStack)) =
    Some {| THREE.position_z := (inject_Z 4 * (3 # 2))%Q |}.
Proof.
  exact (proj1 (camera_is_placed_beyond_the_stack alwaysKeep freshRefs _ _ _
                  (sliceAt 0 (uniformImage 4 4 500))
                  [sliceAt 1 (uniformImage 8 4 500)]
                  eq_refl eq_refl eq_refl)).
Defined.

(** X13: when volume data with points, and a colour for each, is shown,
    the new point cloud holds the coordinates of the points in order and
    the components of the first colours, one colour per point (colours
    beyond the number of points are ignored), nothing else is shown, and
    the camera is moved to z = 1.5 * max(dimensions), where the maximum is
    one of the three dimensions and at least each of them. *)
Theorem update_lays_out_points_and_places_camera :
  forall (s : ThreeDViewer.Session) (sc : THREE.Scene)
         (cam : THREE.PerspectiveCamera) (vd : ThreeDViewer.VolumeData)
         (p : Q * Q * Q) (pts : list (Q * Q * Q)) (d0 d1 d2 : Q),
    ThreeDViewer.scene s = Some sc ->
    ThreeDViewer.camera s = Some cam ->
    ThreeDViewer.points vd = Some (p :: pts) ->
    (length (p :: pts) <= length (ThreeDViewer.colors vd))%nat ->
    ThreeDViewer.dimensions vd = (d0, d1, d2) ->
    (exists sc',
        ThreeDViewer.scene (snd (ThreeDViewer.updateEffect s (Some vd))) =
          Some sc' /\
        pointClouds sc' =
          [THREE.Points
             {| THREE.position := flat3 (p :: pts);
                THREE.color :=
                  flat3 (firstn (length (p :: pts))
                                (ThreeDViewer.colors vd)) |}
             ThreeDViewer.pointsMaterial] /\
        shownVertices sc' = flat3 (p :: pts)) /\
    ThreeDViewer.camera (snd (ThreeDViewer.updateEffect s (Some vd))) =
      Some {| THREE.position_z :=
                (ThreeDViewer.maxDimension (d0, d1, d2) * (3 # 2))%Q |} /\
    (d0 <= ThreeDViewer.maxDimension (d0, d1, d2))%Q /\
    (d1 <= ThreeDViewer.maxDimension (d0, d1, d2))%Q /\
    (d2 <= ThreeDViewer.maxDimension (d0, d1, d2))%Q /\
    (ThreeDViewer.maxDimension (d0, d1, d2) == d0 \/
     ThreeDViewer.maxDimension (d0, d1, d2) == d1 \/
     ThreeDViewer.maxDimension (d0, d1, d2) == d2)%Q.
Proof.
  intros s sc cam vd p pts d0 d1 d2 Hsc Hcam Hpts Hlen Hdim.
  rewrite (updateEffect_exact s sc cam vd p pts Hsc Hcam Hpts Hlen).
  cbn [snd ThreeDViewer.scene ThreeDViewer.camera].
  split.
  - eexists. split; [reflexivity|].
    split; [unfold pointClouds; cbn [THREE.children];
            apply pointClouds_lights; reflexivity|].
    unfold shownVertices. cbn [THREE.children].
    rewrite flat_map_app. cbn [flat_map THREE.position].
    rewrite app_nil_r.
    replace (flat_map _ (filter THREE.is_light (THREE.children sc)))
      with (@nil Q); [reflexivity|].
    induction (THREE.children sc) as [|o l IH]; [reflexivity|].
    cbn [filter]. destruct o; cbn [THREE.is_light flat_map app]; exact IH.
  - rewrite Hdim. split; [reflexivity|]. apply maxDimension_spec.
Qed.

Lemma update_lays_out_points_and_places_camera_witness :
  ThreeDViewer.camera
    (snd (ThreeDViewer.updateEffect
            (ThreeDViewer.initEffect true (Some onePointVolume) unmounted)
            (Some onePointVolume))) =
    Some {| THREE.position_z :=
              (ThreeDViewer.maxDimension (4, 4, 2) * (3 # 2))%Q |}.
Proof.
  exact (proj1 (proj2
    (update_lays_out_points_and_places_camera
       (ThreeDViewer.initEffect true (Some onePointVolume) unmounted)
       _ _ onePointVolume (1, 2, 3)%Q [] 4 4 2
       eq_refl eq_refl eq_refl (le_n 1) eq_refl))).
Defined.

(* ================================================================== *)
(** * Replacing the volume *)
(* ================================================================== *)

(** [ThreeDViewer] given new volume data that has a colour for each of
    its points: the scene it then shows holds its two lights, followed by
    the new point cloud if there is at least one point. *)
Lemma showVolume_exact (s : ThreeDViewer.Session)
      (vd : ThreeDViewer.VolumeData) (pts : list (Q * Q * Q)) :
  ThreeDViewer.points vd = Some pts ->
  (length pts <= length (ThreeDViewer.colors vd))%nat ->
  showVolume true vd s =
  (JS.Normal,
   {| ThreeDViewer.scene :=
        Some {| THREE.children :=
                  [ThreeDViewer.ambientLight; ThreeDViewer.directionalLight] ++
                  match pts with
                  | [] => []
                  | _ :: _ =>
                      [THREE.Points
                         {| THREE.position := flat3 pts;
                            THREE.color :=
                              flat3 (firstn (length pts)
                                            (ThreeDViewer.colors vd)) |}
                         ThreeDViewer.pointsMaterial]
                  end |};
      ThreeDViewer.camera :=
        Some {| THREE.position_z :=
                  match pts with
                  | [] => 200
                  | _ :: _ =>
                      (ThreeDViewer.maxDimension (ThreeDViewer.dimensions vd)
                       * (3 # 2))%Q
                  end |};
      ThreeDViewer.controls :=
        Some {| THREE.enableDamping := true;
                THREE.dampingFactor := 1 # 4 |} |}).
Proof.
  intros Hpts Hlen. unfold showVolume. cbn [ThreeDViewer.initEffect].
  destruct pts as [|p pts].
  - unfold ThreeDViewer.updateEffect. cbn [ThreeDViewer.scene].
    rewrite Hpts. reflexivity.
  - erewrite updateEffect_exact;
      [| reflexivity | reflexivity | exact Hpts | exact Hlen].
    reflexivity.
Qed.

(** [ThreeDViewer] given new volume data that lacks a colour for one of
    its points: the update throws, and the scene it leaves holds the two
    lights alone. *)
Lemma showVolume_missing (s : ThreeDViewer.Session)
      (vd : ThreeDViewer.VolumeData) (p : Q * Q * Q) (pts : list (Q * Q * Q)) :
  ThreeDViewer.points vd = Some (p :: pts) ->
  (length (ThreeDViewer.colors vd) < length (p :: pts))%nat ->
  showVolume true vd s =
  (JS.Throw JS.TypeError,
   {| ThreeDViewer.scene :=
        Some {| THREE.children :=
                  [ThreeDViewer.ambientLight;
                   ThreeDViewer.directionalLight] |};
      ThreeDViewer.camera := Some {| THREE.position_z := 200 |};
      ThreeDViewer.controls :=
        Some {| THREE.enableDamping := true;
                THREE.dampingFactor := 1 # 4 |} |}).
Proof.
  intros Hpts Hlen. unfold showVolume. cbn [ThreeDViewer.initEffect].
  unfold ThreeDViewer.updateEffect. cbn [ThreeDViewer.scene].
  rewrite Hpts.
  destruct (Z.eqb_spec (Z.of_nat (length (p :: pts))) 0) as [H0|_];
    [simpl in H0; lia|].
  rewrite (flatten_from_missing (p :: pts) (ThreeDViewer.colors vd) 0 [] [])
    by lia.
  reflexivity.
Qed.

(** [ThreeDViewer] given new volume data without a [points] array: the
    update returns at once, on the new scene with its two lights. *)
Lemma showVolume_no_points (s : ThreeDViewer.Session)
      (vd : ThreeDViewer.VolumeData) :
  ThreeDViewer.points vd = None ->
  showVolume true vd s =
  (JS.Normal,
   {| ThreeDViewer.scene :=
        Some {| THREE.children :=
                  [ThreeDViewer.ambientLight;
                   ThreeDViewer.directionalLight] |};
      ThreeDViewer.camera := Some {| THREE.position_z := 200 |};
      ThreeDViewer.controls :=
        Some {| THREE.enableDamping := true;
                THREE.dampingFactor := 1 # 4 |} |}).
Proof.
  intros Hpts. unfold showVolume. cbn [ThreeDViewer.initEffect].
  unfold ThreeDViewer.updateEffect. cbn [ThreeDViewer.scene].
  rewrite Hpts. reflexivity.
Qed.

(** C8, as stated, fails for [ThreeDViewer]: given volume data with one
    point and then volume data with zero points, it completes normally
    both times and then shows a scene with its two lights and no point
    cloud object, not exactly one. *)
Lemma empty_replacement_shows_no_cloud :
  fst (showVolume true onePointVolume unmounted) = JS.Normal /\
  fst (showVolume true emptyVolume
         (snd (showVolume true onePointVolume unmounted))) = JS.Normal /\
  option_map THREE.children
    (ThreeDViewer.scene
       (snd (showVolume true emptyVolume
               (snd (showVolume true onePointVolume unmounted))))) =
    Some [ThreeDViewer.ambientLight; ThreeDViewer.directionalLight] /\
  option_map (fun sc => length (pointClouds sc))
    (ThreeDViewer.scene
       (snd (showVolume true emptyVolume
               (snd (showVolume true onePointVolume unmounted))))) =
    Some 0%nat /\
  option_map (fun sc => length (pointClouds sc))
    (ThreeDViewer.scene
       (snd (showVolume true emptyVolume
               (snd (showVolume true onePointVolume unmounted))))) <>
    Some 1%nat.
Proof. repeat split; try reflexivity. discriminate. Qed.

(** C8, amended: replacing the volume removes all prior point cloud
    content and leaves the two lights in place; exactly one point cloud
    object is then in the scene, except that [ThreeDViewer] shows none for
    data without points.  In [DicomViewer1.js], on a ready session whose
    scene starts with the ambient and the directional light, one call on a
    stack that is not empty leaves exactly the two lights and the new point
    cloud, whatever the scene held before, and so does a second call.
    [ThreeDViewer], given any volume data twice in succession, then shows
    its two lights, nothing of what was shown before, and at most one
    point cloud: exactly one, that of the second data, when these have at
    least one point and a colour for each; none when they have zero
    points or no points array (both complete normally), and none when a
    colour is missing (the update then throws). *)
Theorem replaceVolume_keeps_lights_and_one_cloud :
  (forall (rand1 rand2 : nat -> Q) (refs : Refs) (old : list THREE.Object3D)
          (cam : THREE.PerspectiveCamera) (ctl : THREE.OrbitControls)
          (s1 : Slice) (r1 : list Slice) (s2 : Slice) (r2 : list Slice),
      threeScene refs =
        Some {| THREE.children := ambientLight :: directionalLight :: old |} ->
      threeCamera refs = Some cam ->
      threeControls refs = Some ctl ->
      let out1 := createVolumeFromSlices rand1 refs (s1 :: r1) in
      let out2 := createVolumeFromSlices rand2 (snd out1) (s2 :: r2) in
      fst out1 = JS.Normal /\
      option_map THREE.children (threeScene (snd out1)) =
        Some [ambientLight; directionalLight;
              pointCloudOf (sampleVolume rand1 4 (s1 :: r1))] /\
      fst out2 = JS.Normal /\
      option_map THREE.children (threeScene (snd out2)) =
        Some [ambientLight; directionalLight;
              pointCloudOf (sampleVolume rand2 4 (s2 :: r2))])
  /\
  (forall (s : ThreeDViewer.Session) (vd1 vd2 : ThreeDViewer.VolumeData),
      let out1 := showVolume true vd1 s in
      let out2 := showVolume true vd2 (snd out1) in
      exists sc2,
        ThreeDViewer.scene (snd out2) = Some sc2 /\
        filter THREE.is_light (THREE.children sc2) =
          [ThreeDViewer.ambientLight; ThreeDViewer.directionalLight] /\
        THREE.children sc2 =
          [ThreeDViewer.ambientLight; ThreeDViewer.directionalLight] ++
          pointClouds sc2 /\
        (length (pointClouds sc2) <= 1)%nat /\
        (forall p pts,
            ThreeDViewer.points vd2 = Some (p :: pts) ->
            (length (p :: pts) <= length (ThreeDViewer.colors vd2))%nat ->
            fst out2 = JS.Normal /\
            pointClouds sc2 =
              [THREE.Points
                 {| THREE.position := flat3 (p :: pts);
                    THREE.color :=
                      flat3 (firstn (length (p :: pts))
                                    (ThreeDViewer.colors vd2)) |}
                 ThreeDViewer.pointsMaterial]) /\
        (ThreeDViewer.points vd2 = Some [] \/ ThreeDViewer.points vd2 = None ->
         fst out2 = JS.Normal /\ pointClouds sc2 = []) /\
        (forall p pts,
            ThreeDViewer.points vd2 = Some (p :: pts) ->
            (length (ThreeDViewer.colors vd2) < length (p :: pts))%nat ->
            fst out2 = JS.Throw JS.TypeError /\ pointClouds sc2 = [])).
Proof.
  split.
  - intros rand1 rand2 refs old cam ctl s1 r1 s2 r2 Hsc Hcam Hctl out1 out2.
    subst out2 out1.
    rewrite (createVolume_ready rand1 refs _ cam ctl s1 r1 Hsc Hcam Hctl).
    cbn [fst snd].
    erewrite (createVolume_ready rand2 _ _ _ ctl s2 r2);
      [| reflexivity | reflexivity | reflexivity].
    repeat split; reflexivity.
  - intros s vd1 vd2 out1 out2. subst out2.
    generalize (snd out1). clear out1 s vd1. intros s.
    destruct (ThreeDViewer.points vd2) as [[|p pts]|] eqn:Hpts.
    + rewrite (showVolume_exact s vd2 [] Hpts (Nat.le_0_l _)).
      eexists. split; [reflexivity|]. cbn [fst].
      unfold pointClouds. cbn [ThreeDViewer.scene THREE.children].
      repeat split; try reflexivity; try discriminate.
      cbn. lia.
    + destruct (Nat.le_gt_cases (length (p :: pts))
                                (length (ThreeDViewer.colors vd2)))
        as [Hle|Hgt].
      * rewrite (showVolume_exact s vd2 (p :: pts) Hpts Hle).
        eexists. split; [reflexivity|]. cbn [fst].
        unfold pointClouds. cbn [ThreeDViewer.scene THREE.children].
        split; [reflexivity|]. split; [reflexivity|].
        split; [cbn; lia|].
        split; [|split].
        -- intros p' pts' Heq _. inversion Heq; subst.
           split; reflexivity.
        -- intros [Heq|Heq]; discriminate.
        -- intros p' pts' Heq Hlt. inversion Heq; subst. lia.
      * rewrite (showVolume_missing s vd2 p pts Hpts Hgt).
        eexists. split; [reflexivity|]. cbn [fst].
        unfold pointClouds. cbn [ThreeDViewer.scene THREE.children].
        split; [reflexivity|]. split; [reflexivity|].
        split; [cbn; lia|].
        split; [|split].
        -- intros p' pts' Heq Hle. inversion Heq; subst. lia.
        -- intros [Heq|Heq]; discriminate.
        -- intros p' pts' _ _. split; reflexivity.
    + rewrite (showVolume_no_points s vd2 Hpts).
      eexists. split; [reflexivity|]. cbn [fst].
      unfold pointClouds. cbn [ThreeDViewer.scene THREE.children].
      repeat split; try reflexivity; try discriminate.
      cbn. lia.
Qed.

Lemma replaceVolume_keeps_lights_and_one_cloud_witness :
  option_map THREE.children
    (threeScene
       (snd (createVolumeFromSlices alwaysKeep
               (snd (createVolumeFromSlices alwaysKeep freshRefs airBoneStack))
               mismatchedStack))) =
    Some [ambientLight; directionalLight;
          pointCloudOf (sampleVolume alwaysKeep 4 mismatchedStack)]
  /\
  exists sc2,
    ThreeDViewer.scene
      (snd (showVolume true onePointVolume
              (snd (showVolume true emptyVolume unmounted)))) = Some sc2 /\
    (length (pointClouds sc2) <= 1)%nat.
Proof.
  split.
  - exact (proj2 (proj2 (proj2
      (proj1 replaceVolume_keeps_lights_and_one_cloud
         alwaysKeep alwaysKeep freshRefs [] _ _
         airSlice [boneSlice]
         (sliceAt 0 (uniformImage 4 4 500)) [sliceAt 1 (uniformImage 8 4 500)]
         eq_refl eq_refl eq_refl)))).
  - destruct (proj2 replaceVolume_keeps_lights_and_one_cloud
                unmounted emptyVolume onePointVolume)
      as [sc2 [Hsc [_ [_ [Hlen _]]]]].
    exists sc2. split; [exact Hsc | exact Hlen].
Defined.


